(** * Meteor Madness: impact simulator, nearest-city lookup and mitigation tiers

    A shallow embedding of [meteor_api_model.py] and of the risk scorer of
    [meteor_csv_api.py].  Python floats are idealised as the real numbers
    of the Standard Library, so rounding error and overflow are outside the
    model; [float('inf')] is kept as a separate value.  Library calls that
    can raise ([math.sqrt], [math.asin], [**] leaving the reals, list
    indexing) return [option], and the functions that call them thread the
    error through a small option monad.

    The surroundings of the two programs are made explicit where they act
    on them: standard input is the list of the lines still to be read, the
    prediction log is an optional list of rows, and the answer of each
    feed is a function of the request, [None] when the request failed.
    [float] on a string and the formatted time stamp are parameters. *)

From Stdlib Require Import Reals Machin Lra Lia Psatz ZArith List String Ascii Bool.
From Stdlib Require Import DecimalString.
Import ListNotations.

Open Scope R_scope.

(** ** Python primitives used by the two modules *)

Module Py.

(** A float that may be [float('inf')]. *)
Inductive pyfloat : Type :=
| Fin (x : R)
| Inf.

Definition bind {A B : Type} (m : option A) (k : A -> option B) : option B :=
  match m with
  | Some a => k a
  | None => None
  end.

Notation "x <- m ;; k" := (bind m (fun x => k))
  (at level 61, m at next level, right associativity).

(** [math.radians]. *)
Definition radians (deg : R) : R := deg * PI / 180.

(** [math.sqrt] raises [ValueError] on a negative argument. *)
Definition math_sqrt (x : R) : option R :=
  if Rle_dec 0 x then Some (sqrt x) else None.

(** [math.asin] raises [ValueError] outside [[-1, 1]]. *)
Definition math_asin (x : R) : option R :=
  if Rle_dec (-1) x then
    if Rle_dec x 1 then Some (asin x) else None
  else None.

(** [x ** y] on floats, for the exponents the program uses (1/3, 0.44, 0.22
    and 0.33; the integer powers 2 and 3 are written with [^]).  A negative
    base with such an exponent gives a Python [complex]; every path of
    [simulate_meteor_impact] later compares the value it flows into
    ([city_distance_km <= damage_radius_km] at the latest), which raises
    [TypeError], so the model fails where the value is produced. *)
Definition float_pow (x y : R) : option R :=
  if Rlt_dec 0 x then Some (Rpower x y)
  else if Req_dec_T x 0 then
    if Rlt_dec 0 y then Some 0
    else if Req_dec_T y 0 then Some 1
    else None
  else None.

(** Rounding to the nearest integer, ties to the even one. *)
Definition round_half_even (x : R) : Z :=
  let f := Zfloor x in
  let r := x - IZR f in
  if Rlt_dec r (1 / 2) then f
  else if Rlt_dec (1 / 2) r then (f + 1)%Z
  else if Z.even f then f else (f + 1)%Z.

(** [round(x, ndigits)] on a finite float. *)
Definition round (x : R) (ndigits : nat) : R :=
  IZR (round_half_even (x * 10 ^ ndigits)) / 10 ^ ndigits.

(** [round] leaves an infinity as it is when [ndigits] is given. *)
Definition round_float (x : pyfloat) (ndigits : nat) : pyfloat :=
  match x with
  | Fin r => Fin (round r ndigits)
  | Inf => Inf
  end.

(** [int(x)]: truncation towards zero. *)
Definition int (x : R) : Z :=
  if Rle_dec 0 x then Zfloor x else (- Zfloor (- x))%Z.

(** [x < y] and [x <= y] for a finite [x]. *)
Definition lt_float (x : R) (y : pyfloat) : bool :=
  match y with
  | Fin r => if Rlt_dec x r then true else false
  | Inf => true
  end.

Definition float_le (x : pyfloat) (y : R) : bool :=
  match x with
  | Fin r => if Rle_dec r y then true else false
  | Inf => false
  end.

(** [str(n)] for an integer. *)
Definition str_int (n : Z) : string := NilZero.string_of_int (Z.to_int n).

(** [format(x, '.1f')]: one decimal, the sign kept in front. *)
Definition format_1f (x : R) : string :=
  let t := round_half_even (Rabs x * 10) in
  ((if Rlt_dec x 0 then "-" else "") ++
   str_int (t / 10) ++ "." ++ str_int (t mod 10))%string.

(** [l[i]] on a list: a negative index counts from the end, an index out of
    range raises [IndexError]. *)
Definition list_getitem {A : Type} (l : list A) (i : Z) : option A :=
  let n := Z.of_nat (List.length l) in
  if (0 <=? i)%Z then nth_error l (Z.to_nat i)
  else if (- n <=? i)%Z then nth_error l (Z.to_nat (i + n))
  else None.

End Py.

Import Py.

(** ** meteor_api_model.py *)

Module MeteorApiModel.

Open Scope string_scope.
Open Scope R_scope.

(** An entry of the city dictionary: name, (latitude, longitude,
    population).  The dictionary is iterated in insertion order and its
    keys are pairwise distinct, so it is kept as an association list. *)
Definition city_entry : Type := (string * (R * R * Z))%type.

Definition MAJOR_CITIES : list city_entry :=
  [
    (* North America *)
    ("New York, USA", (40.7128, (-74.0060), 8336817%Z));
    ("Los Angeles, USA", (34.0522, (-118.2437), 3979576%Z));
    ("Chicago, USA", (41.8781, (-87.6298), 2693976%Z));
    ("Houston, USA", (29.7604, (-95.3698), 2320268%Z));
    ("Phoenix, USA", (33.4484, (-112.0740), 1680992%Z));
    ("Philadelphia, USA", (39.9526, (-75.1652), 1584064%Z));
    ("San Antonio, USA", (29.4241, (-98.4936), 1547253%Z));
    ("San Diego, USA", (32.7157, (-117.1611), 1423851%Z));
    ("Dallas, USA", (32.7767, (-96.7970), 1343573%Z));
    ("San Jose, USA", (37.3382, (-121.8863), 1021795%Z));
    ("Seattle, USA", (47.6062, (-122.3321), 753675%Z));
    ("Denver, USA", (39.7392, (-104.9903), 715522%Z));
    ("Boston, USA", (42.3601, (-71.0589), 692600%Z));
    ("Miami, USA", (25.7617, (-80.1918), 467963%Z));
    ("Las Vegas, USA", (36.1699, (-115.1398), 641903%Z));
    ("Toronto, Canada", (43.6532, (-79.3832), 2930000%Z));
    ("Montreal, Canada", (45.5017, (-73.5673), 1780000%Z));
    ("Vancouver, Canada", (49.2827, (-123.1207), 675218%Z));
    ("Mexico City, Mexico", (19.4326, (-99.1332), 9209944%Z));
    ("Guadalajara, Mexico", (20.6597, (-103.3496), 1495189%Z));
    (* South America *)
    ("São Paulo, Brazil", ((-23.5505), (-46.6333), 12325232%Z));
    ("Rio de Janeiro, Brazil", ((-22.9068), (-43.1729), 6748000%Z));
    ("Buenos Aires, Argentina", ((-34.6037), (-58.3816), 3075646%Z));
    ("Lima, Peru", ((-12.0464), (-77.0428), 9752000%Z));
    ("Bogotá, Colombia", (4.7110, (-74.0721), 7412566%Z));
    ("Santiago, Chile", ((-33.4489), (-70.6693), 5614000%Z));
    ("Caracas, Venezuela", (10.4806, (-66.9036), 2923959%Z));
    (* Europe *)
    ("London, UK", (51.5074, (-0.1278), 8982000%Z));
    ("Paris, France", (48.8566, 2.3522, 2161000%Z));
    ("Berlin, Germany", (52.5200, 13.4050, 3769495%Z));
    ("Madrid, Spain", (40.4168, (-3.7038), 3223334%Z));
    ("Rome, Italy", (41.9028, 12.4964, 2872800%Z));
    ("Amsterdam, Netherlands", (52.3676, 4.9041, 821752%Z));
    ("Vienna, Austria", (48.2082, 16.3738, 1911191%Z));
    ("Warsaw, Poland", (52.2297, 21.0122, 1790658%Z));
    ("Stockholm, Sweden", (59.3293, 18.0686, 975551%Z));
    ("Athens, Greece", (37.9838, 23.7275, 664046%Z));
    ("Moscow, Russia", (55.7558, 37.6173, 12506468%Z));
    ("Istanbul, Turkey", (41.0082, 28.9784, 15462452%Z));
    ("Kyiv, Ukraine", (50.4501, 30.5234, 2967360%Z));
    (* Asia *)
    ("Tokyo, Japan", (35.6762, 139.6503, 13960000%Z));
    ("Beijing, China", (39.9042, 116.4074, 21540000%Z));
    ("Shanghai, China", (31.2304, 121.4737, 27058480%Z));
    ("Mumbai, India", (19.0760, 72.8777, 12442373%Z));
    ("Delhi, India", (28.7041, 77.1025, 16753235%Z));
    ("Bangalore, India", (12.9716, 77.5946, 8443675%Z));
    ("Seoul, South Korea", (37.5665, 126.9780, 9776000%Z));
    ("Bangkok, Thailand", (13.7563, 100.5018, 10539000%Z));
    ("Singapore", (1.3521, 103.8198, 5685807%Z));
    ("Manila, Philippines", (14.5995, 120.9842, 1780148%Z));
    ("Jakarta, Indonesia", ((-6.2088), 106.8456, 10562088%Z));
    ("Karachi, Pakistan", (24.8607, 67.0011, 14910352%Z));
    ("Tehran, Iran", (35.6892, 51.3890, 8693706%Z));
    ("Riyadh, Saudi Arabia", (24.7136, 46.6753, 7676654%Z));
    ("Dubai, UAE", (25.2048, 55.2708, 3331420%Z));
    ("Hong Kong", (22.3193, 114.1694, 7496981%Z));
    (* Africa *)
    ("Cairo, Egypt", (30.0444, 31.2357, 9500000%Z));
    ("Lagos, Nigeria", (6.5244, 3.3792, 14862000%Z));
    ("Johannesburg, South Africa", ((-26.2041), 28.0473, 5635127%Z));
    ("Nairobi, Kenya", ((-1.2864), 36.8172, 4397073%Z));
    ("Kinshasa, DR Congo", ((-4.4419), 15.2663, 14342000%Z));
    ("Casablanca, Morocco", (33.5731, (-7.5898), 3359818%Z));
    ("Addis Ababa, Ethiopia", (9.0320, 38.7469, 3352000%Z));
    (* Oceania *)
    ("Sydney, Australia", ((-33.8688), 151.2093, 5312163%Z));
    ("Melbourne, Australia", ((-37.8136), 144.9631, 5078193%Z));
    ("Brisbane, Australia", ((-27.4698), 153.0251, 2560720%Z));
    ("Perth, Australia", ((-31.9505), 115.8605, 2125114%Z));
    ("Auckland, New Zealand", ((-36.8485), 174.7633, 1571718%Z))
  ].

(** The haversine distance computed in the body of the loop of
    [find_nearest_city]. *)
Definition haversine_distance (lat lon city_lat city_lon : R) : option R :=
  let R := 6371 in
  let dlat := radians (city_lat - lat) in
  let dlon := radians (city_lon - lon) in
  let a := sin (dlat / 2) ^ 2 +
           cos (radians lat) * cos (radians city_lat) * sin (dlon / 2) ^ 2 in
  s <- math_sqrt a ;;
  h <- math_asin s ;;
  let c := 2 * h in
  Some (R * c).

(** One iteration of the loop, on the state [(min_distance, nearest)]. *)
Definition nearest_step (lat lon : R) (st : pyfloat * string) (entry : city_entry)
  : option (pyfloat * string) :=
  let '(min_distance, nearest) := st in
  let '(city, (city_lat, city_lon, population)) := entry in
  distance <- haversine_distance lat lon city_lat city_lon ;;
  if lt_float distance min_distance then Some (Fin distance, city)
  else Some (min_distance, nearest).

Fixpoint nearest_loop (lat lon : R) (cities : list city_entry)
  (st : pyfloat * string) : option (pyfloat * string) :=
  match cities with
  | [] => Some st
  | entry :: rest =>
      st' <- nearest_step lat lon st entry ;;
      nearest_loop lat lon rest st'
  end.

(** [find_nearest_city] with the global dictionary it reads made explicit. *)
Definition find_nearest_city_in (cities : list city_entry) (lat lon : R)
  : option (string * pyfloat) :=
  st <- nearest_loop lat lon cities (Inf, "Unknown location") ;;
  let '(min_distance, nearest) := st in
  Some (nearest, round_float min_distance 2).

Definition find_nearest_city (lat lon : R) : option (string * pyfloat) :=
  find_nearest_city_in MAJOR_CITIES lat lon.

(** The dictionary returned by [simulate_meteor_impact]. *)
Record ImpactResult : Type := {
  mass_kg : R;
  impact_energy_j : R;
  impact_energy_mt : R;
  crater_diameter_m : R;
  damage_radius_km : R;
  proximity_risk : R;
  impact_risk : R;
  combined_risk_factor : R;
  impact_classification : string;
  casualty_estimate : string;
  nearest_city : string;
  city_distance_km : pyfloat;
  city_affected : bool
}.

Definition simulate_meteor_impact
  (diameter_m velocity_km_s distance_km lat lon angle_deg density_kg_m3 : R)
  : option ImpactResult :=
  let EARTH_DENSITY := 2700 in
  let TNT_EQUIVALENT_J := 4.184e15 in
  let MAX_DISTANCE_KM := 1e7 in
  let radius_m := diameter_m / 2 in
  let velocity_m_s := velocity_km_s * 1000 in
  let angle_rad := radians angle_deg in
  let mass_kg := (4 / 3) * PI * radius_m ^ 3 * density_kg_m3 in
  let energy_j := 0.5 * mass_kg * velocity_m_s ^ 2 * sin angle_rad in
  let energy_mt := energy_j / TNT_EQUIVALENT_J in
  mass_pow <- float_pow mass_kg (1 / 3) ;;
  velocity_pow <- float_pow velocity_m_s 0.44 ;;
  density_pow <- float_pow EARTH_DENSITY 0.22 ;;
  let crater_diameter_m := 1.161 * (mass_pow * velocity_pow) / density_pow in
  angle_pow <- float_pow (sin angle_rad) 0.33 ;;
  let crater_diameter_m := crater_diameter_m * angle_pow in
  let damage_radius_km := (crater_diameter_m / 1000) * 20 in
  let proximity_risk :=
    Rmin 100 (Rmax 0 ((MAX_DISTANCE_KM - distance_km) / 1e5)) in
  let impact_risk :=
    if Rlt_dec energy_mt 0.01 then 5
    else if Rlt_dec energy_mt 1 then Rmin 50 (20 + damage_radius_km)
    else if Rlt_dec energy_mt 1000 then Rmin 80 (50 + damage_radius_km * 0.5)
    else Rmin 100 (80 + damage_radius_km * 0.1) in
  let combined_risk := proximity_risk * 0.4 + impact_risk * 0.6 in
  let combined_risk := round (Rmin 100 (Rmax 0 combined_risk)) 1 in
  let '(impact_class, casualty_estimate) :=
    if Rlt_dec energy_mt 0.01 then
      ("Small fireball — harmless airburst",
       "0-10 (minor injuries from debris)")
    else if Rlt_dec energy_mt 1 then
      ("Tunguska-scale regional event",
       "100s-1,000s (within 50km radius)")
    else if Rlt_dec energy_mt 1000 then
      ("City to country-scale devastation",
       "10,000s-100,000s (regional catastrophe)")
    else
      ("Global catastrophic impact",
       "Millions to billions (mass extinction event)") in
  found <- find_nearest_city lat lon ;;
  let '(nearest_city, city_distance_km) := found in
  let city_affected := float_le city_distance_km damage_radius_km in
  Some {|
    mass_kg := mass_kg;
    impact_energy_j := energy_j;
    impact_energy_mt := energy_mt;
    crater_diameter_m := crater_diameter_m;
    damage_radius_km := damage_radius_km;
    proximity_risk := proximity_risk;
    impact_risk := impact_risk;
    combined_risk_factor := combined_risk;
    impact_classification := impact_class;
    casualty_estimate := casualty_estimate;
    nearest_city := nearest_city;
    city_distance_km := city_distance_km;
    city_affected := city_affected
  |}.

(** [get_mitigation_strategy]: the four f-strings, then the threshold
    chain that picks one. *)
Definition low_risk_plan (nearest_city : string) : string :=
  ("[LOW RISK] - Airburst Alert Protocol
        
This meteor will likely burn up in the atmosphere or cause minimal ground damage.
However, residents near " ++
   nearest_city ++
   " should be aware of potential:
- Sonic booms and shockwaves
- Bright flashes in the sky
- Minor debris fallout

RECOMMENDED ACTIONS:
* Issue public awareness notice about atmospheric entry
* Monitor trajectory for any deviations
* Prepare emergency services for possible minor injuries
* Secure loose objects and windows within 50km of predicted airburst
* Educate public about meteor phenomena to prevent panic")%string.

Definition moderate_risk_plan (city_affected : bool) (nearest_city : string)
  (damage_radius_km : R) : string :=
  ("[MODERATE RISK] - Regional Evacuation Required
        
This meteor poses significant regional risk. The impact zone extends " ++
   format_1f damage_radius_km ++
   " km from the impact site.
" ++
   (if city_affected
     then "[WARNING]: " ++ nearest_city ++ " is within the danger zone!"
     else "Nearest city (" ++ nearest_city ++ ") is outside immediate danger zone.") ++
   "

RECOMMENDED ACTIONS:
* Evacuate all residents within " ++
   format_1f damage_radius_km ++
   " km of impact coordinates
* Establish emergency shelters at least " ++
   format_1f (damage_radius_km * 1.5) ++
   " km away
* Deploy emergency response teams and medical units
* Secure critical infrastructure (hospitals, power plants, water systems)
* Issue emergency broadcasts and alerts
* Prepare for blast wave damage, fires, and potential tsunamis (if ocean impact)
* Coordinate with national disaster management agencies")%string.

Definition high_risk_plan (city_affected : bool) (nearest_city : string)
  (damage_radius_km : R) : string :=
  ("[HIGH RISK] - National Emergency & Infrastructure Protection
        
This is a catastrophic-scale impact that will devastate " ++
   format_1f damage_radius_km ++
   " km radius.
" ++
   (if city_affected
     then "[CRITICAL]: " ++ nearest_city ++ " faces total destruction!"
     else "Major cities within " ++ str_int (int damage_radius_km) ++ "km must evacuate immediately!") ++
   "

RECOMMENDED ACTIONS:
* Declare national emergency and activate all disaster protocols
* Mass evacuation of population within " ++
   format_1f (damage_radius_km * 2) ++
   " km
* Reinforce critical infrastructure outside the impact zone
* Deploy military assets for rescue and recovery operations
* Establish emergency government continuity plans
* Stockpile food, water, and medical supplies
* Prepare for long-term displacement of millions
* International aid coordination with UN and neighboring countries
* Consider deflection missions if detection is early enough")%string.

Definition extreme_risk_plan (nearest_city : string) : string :=
  ("[EXTREME RISK] - Global Catastrophe & Planetary Defense
        
This is an extinction-level impact event with global consequences.
ALL major population centers including " ++
   nearest_city ++
   " are at risk from global effects.

RECOMMENDED ACTIONS:
* Activate international planetary defense protocols immediately
* Consider kinetic impactor or nuclear deflection missions
* Global evacuation and shelter-in-place orders
* Prepare for:
  - Massive earthquakes and tsunamis worldwide
  - Global firestorms and atmospheric ignition
  - Impact winter and crop failures
  - Collapse of civilization infrastructure
* Establish underground shelters and seed vaults
* Preserve critical knowledge and technology
* International cooperation for human species survival
* Launch emergency space missions if time permits
* Document and preserve cultural heritage

NOTE: If impact is imminent and deflection impossible, focus on:
  - Protecting genetic diversity and knowledge repositories
  - Deep underground shelter construction
  - Long-term survival preparation for post-impact world")%string.

Definition get_mitigation_strategy (risk_factor : R) (city_affected : bool)
  (nearest_city : string) (damage_radius_km : R) : string :=
  if Rlt_dec risk_factor 20 then low_risk_plan nearest_city
  else if Rlt_dec risk_factor 50 then
    moderate_risk_plan city_affected nearest_city damage_radius_km
  else if Rlt_dec risk_factor 80 then
    high_risk_plan city_affected nearest_city damage_radius_km
  else extreme_risk_plan nearest_city.

(** *** [interactive_predictor]

    The console and the log file are made explicit: standard input is the
    list of the lines still to be read, the log file is absent or holds a
    list of rows, and a row is the list of the values handed to
    [csv.writer].  [float(s)] on a typed line and the formatted time stamp
    are parameters.  The text printed on the way is not modelled beyond
    the error message that ends a rejected run.  The log file is assumed
    writable. *)

Inductive csv_cell : Type :=
| CellStr (s : string)
| CellFloat (x : pyfloat)
| CellBool (b : bool).

Definition csv_log : Type := option (list (list csv_cell)).

Definition LOG_HEADER : list csv_cell :=
  map CellStr
    ["Timestamp"; "Diameter_m"; "Velocity_km_s"; "Distance_km"; "Latitude";
     "Longitude"; "Mass_kg"; "Impact_Energy_MT"; "Crater_Diameter_m";
     "Damage_Radius_km"; "Combined_Risk_Factor"; "Impact_Classification";
     "Nearest_City"; "City_Distance_km"; "City_Affected"; "Casualty_Estimate"].

(** How a call ends: with one of the four error messages, with a saved
    prediction, or with an exception that nothing catches ([EOFError] from
    [input], or an exception of [simulate_meteor_impact]). *)
Inductive predictor_outcome : Type :=
| Rejected (message : string)
| Predicted (result : ImpactResult) (mitigation : string)
| Uncaught.

(** The next [n] prompts: each reads a line and converts it before the
    next line is read. *)
Inductive read_result : Type :=
| ReadOk (values : list R) (rest : list string)
| ReadValueError (rest : list string)
| ReadEOF.

Fixpoint read_floats (float_of_string : string -> option R) (n : nat)
  (stdin : list string) : read_result :=
  match n with
  | O => ReadOk [] stdin
  | S n' =>
      match stdin with
      | [] => ReadEOF
      | line :: rest =>
          match float_of_string line with
          | None => ReadValueError rest
          | Some x =>
              match read_floats float_of_string n' rest with
              | ReadOk values rest' => ReadOk (x :: values) rest'
              | other => other
              end
          end
      end
  end.

Definition log_row (timestamp : string)
  (diameter_m velocity_km_s distance_km lat lon : R) (result : ImpactResult)
  : list csv_cell :=
  [CellStr timestamp; CellFloat (Fin diameter_m); CellFloat (Fin velocity_km_s);
   CellFloat (Fin distance_km); CellFloat (Fin lat); CellFloat (Fin lon);
   CellFloat (Fin (mass_kg result)); CellFloat (Fin (impact_energy_mt result));
   CellFloat (Fin (crater_diameter_m result));
   CellFloat (Fin (damage_radius_km result));
   CellFloat (Fin (combined_risk_factor result));
   CellStr (impact_classification result); CellStr (nearest_city result);
   CellFloat (city_distance_km result); CellBool (city_affected result);
   CellStr (casualty_estimate result)].

(** The [with open(csv_filename, mode='a')] block. *)
Definition append_prediction (log : csv_log) (row : list csv_cell) : csv_log :=
  match log with
  | None => Some [LOG_HEADER; row]
  | Some rows => Some (rows ++ [row])%list
  end.

Definition interactive_predictor (float_of_string : string -> option R)
  (timestamp : string) (stdin : list string) (log : csv_log)
  : predictor_outcome * list string * csv_log :=
  match read_floats float_of_string 5 stdin with
  | ReadEOF => (Uncaught, [], log)
  | ReadValueError rest =>
      (Rejected "ERROR: Invalid input. Please enter numeric values.", rest, log)
  | ReadOk [diameter_m; velocity_km_s; distance_km; lat; lon] rest =>
      if negb (if Rle_dec (-90) lat then if Rle_dec lat 90 then true else false
               else false) then
        (Rejected "ERROR: Invalid latitude! Must be between -90 and 90.",
         rest, log)
      else if negb (if Rle_dec (-180) lon then
                      if Rle_dec lon 180 then true else false
                    else false) then
        (Rejected "ERROR: Invalid longitude! Must be between -180 and 180.",
         rest, log)
      else if (if Rle_dec diameter_m 0 then true else false) ||
              (if Rle_dec velocity_km_s 0 then true else false) ||
              (if Rlt_dec distance_km 0 then true else false) then
        (Rejected "ERROR: Invalid values! All measurements must be positive.",
         rest, log)
      else
        match simulate_meteor_impact diameter_m velocity_km_s distance_km
                lat lon 45 3000 with
        | None => (Uncaught, rest, log)
        | Some result =>
            let mitigation :=
              get_mitigation_strategy (combined_risk_factor result)
                (city_affected result) (nearest_city result)
                (damage_radius_km result) in
            (Predicted result mitigation, rest,
             append_prediction log
               (log_row timestamp diameter_m velocity_km_s distance_km
                  lat lon result))
        end
  | ReadOk _ rest => (Uncaught, rest, log)
  end.

End MeteorApiModel.

(** ** meteor_csv_api.py: the risk scorer of the batch collector *)

Module MeteorCsvApi.

Open Scope string_scope.
Open Scope R_scope.

Definition MAX_DISTANCE_KM : R := 1e7.

Definition MITIGATION_STRATEGIES : list string :=
  [
    "Early detection and orbit monitoring to plan deflection.";
    "Evacuation of high-risk areas if impact is imminent.";
    "International coordination for disaster management.";
    "Deploy kinetic impactor to change asteroid trajectory.";
    "Use nuclear devices only as last-resort deflection.";
    "Public alert system for meteor airburst warnings.";
    "Secure critical infrastructure in potential impact zones.";
    "Simulation drills for cities under high risk.";
    "Satellite observation to track fragmenting meteors.";
    "Emergency medical preparation for blast injuries.";
    "Fire suppression readiness in case of fireball impacts.";
    "Marine alerts for potential tsunami from ocean impacts.";
    "Reinforcement of buildings against shockwaves.";
    "Debris shielding for satellites in orbit.";
    "Rapid response teams for search & rescue.";
    "Meteor insurance programs for property damage.";
    "Temporary exclusion zones around predicted impact sites.";
    "Analysis of meteor composition for chemical hazards.";
    "Post-impact environmental monitoring plans.";
    "Research into long-term planetary defense strategies."
  ].

Definition calculate_risk_factor (diameter velocity distance_km : R) : R :=
  let energy :=
    0.5 * (4 / 3 * PI * (diameter / 2) ^ 3 * 3000) * (velocity * 1000) ^ 2 in
  let energy_mt := energy / 4.184e15 in
  let risk :=
    Rmin 100 (Rmax 0 (energy_mt * 0.5 + (MAX_DISTANCE_KM - distance_km) / 1e5)) in
  round risk 1.

(** The index computed on the first line of [choose_mitigation]. *)
Definition mitigation_index (risk : R) : Z :=
  Z.min (Z.of_nat (List.length MITIGATION_STRATEGIES) - 1) (int (risk / 5)).

Definition choose_mitigation (risk : R) : option string :=
  let index := mitigation_index risk in
  list_getitem MITIGATION_STRATEGIES index.

(** *** Values decoded from the feeds

    What [resp.json()] returns: [None], booleans, integers, floats,
    strings, lists and dictionaries.  A string is the list of its
    characters, one [ascii] each; a dictionary is the list of its items in
    insertion order, with pairwise distinct keys. *)
#[warnings="-register-all"] Inductive json : Type :=
| JNull
| JBool (b : bool)
| JInt (n : Z)
| JFloat (x : R)
| JStr (s : string)
| JList (items : list json)
| JDict (items : list (string * json)).

(** [d.get(key)] and [d[key]] on the items of a dictionary. *)
Fixpoint dict_get (items : list (string * json)) (key : string) : option json :=
  match items with
  | [] => None
  | (k, v) :: rest => if String.eqb k key then Some v else dict_get rest key
  end.

(** The characters of a string, each as a string of length 1. *)
Fixpoint chars (s : string) : list json :=
  match s with
  | EmptyString => []
  | String c rest => JStr (String c EmptyString) :: chars rest
  end.

(** [for x in v]: the elements of a list, the keys of a dictionary, the
    characters of a string; anything else is not iterable ([TypeError]). *)
Definition iterate (v : json) : option (list json) :=
  match v with
  | JList items => Some items
  | JDict items => Some (map (fun kv => JStr (fst kv)) items)
  | JStr s => Some (chars s)
  | _ => None
  end.

(** [v[key]]: [KeyError], [IndexError] and [TypeError] all give [None].
    A boolean indexes a sequence as the integer 0 or 1. *)
Definition getitem (v key : json) : option json :=
  match v, key with
  | JDict items, JStr k => dict_get items k
  | JList items, JInt i => list_getitem items i
  | JList items, JBool b => list_getitem items (if b then 1 else 0)%Z
  | JStr s, JInt i => list_getitem (chars s) i
  | JStr s, JBool b => list_getitem (chars s) (if b then 1 else 0)%Z
  | _, _ => None
  end.

(** [bool(v)]. *)
Definition truthy (v : json) : bool :=
  match v with
  | JNull => false
  | JBool b => b
  | JInt n => negb (n =? 0)%Z
  | JFloat x => if Req_dec_T x 0 then false else true
  | JStr s => negb (String.eqb s "")
  | JList items => match items with [] => false | _ => true end
  | JDict items => match items with [] => false | _ => true end
  end.

(** [v in ["", None]]. *)
Definition is_blank (v : json) : bool :=
  match v with
  | JNull => true
  | JStr s => String.eqb s ""
  | _ => false
  end.

(** A record as the three fetch functions build it. *)
Record sky_object : Type := {
  obj_source : string;
  obj_name : json;
  obj_diameter_m : R;
  obj_velocity_km_s : R;
  obj_distance_km : R
}.

Section Feeds.

(** [float(s)] on a string; [None] stands for [ValueError]. *)
Variable float_of_string : string -> option R.

(** [float(v)]: [TypeError] on [None], lists and dictionaries. *)
Definition py_float (v : json) : option R :=
  match v with
  | JStr s => float_of_string s
  | JInt n => Some (IZR n)
  | JFloat x => Some x
  | JBool b => Some (if b then 1 else 0)
  | _ => None
  end.

(** [float(v) if v not in ["", None] else default]. *)
Definition float_or (v : json) (default : R) : option R :=
  if is_blank v then Some default else py_float v.

(** The body of the loop of [fetch_fireball]: the record appended for an
    event, or [None] when the event is over the distance limit or raises
    (the bare [except] skips it). *)
Definition fireball_event (event : json) : option sky_object :=
  e7 <- getitem event (JInt 7) ;;
  diam <- float_or e7 1.0 ;;
  e4 <- getitem event (JInt 4) ;;
  vel <- float_or e4 0.0 ;;
  e1 <- getitem event (JInt 1) ;;
  dist <- float_or e1 MAX_DISTANCE_KM ;;
  if Rle_dec dist MAX_DISTANCE_KM then
    e0 <- getitem event (JInt 0) ;;
    Some {| obj_source := "Fireball"; obj_name := e0; obj_diameter_m := diam;
            obj_velocity_km_s := vel; obj_distance_km := dist |}
  else None.

Fixpoint filter_events (step : json -> option sky_object) (events : list json)
  : list sky_object :=
  match events with
  | [] => []
  | event :: rest =>
      match step event with
      | Some record => record :: filter_events step rest
      | None => filter_events step rest
      end
  end.

(** [fetch_fireball] on the outcome of the request: [None] when
    [requests.get], [raise_for_status] or [resp.json()] raised.  A body
    that is not a dictionary, or whose "data" cannot be iterated, raises
    inside the outer [try] before any event is appended. *)
Definition fetch_fireball (response : option json) : list sky_object :=
  match response with
  | Some (JDict items) =>
      match dict_get items "data" with
      | None => []
      | Some data =>
          match iterate data with
          | Some events => filter_events fireball_event events
          | None => []
          end
      end
  | _ => []
  end.

End Feeds.

Section CadFeed.

Variable float_of_string : string -> option R.

(** [fields.index(name)] on a list: the position of the first element
    equal to the string [name]. *)
Fixpoint list_index (items : list json) (name : string) : option nat :=
  match items with
  | [] => None
  | item :: rest =>
      match item with
      | JStr s =>
          if String.eqb s name then Some O
          else option_map S (list_index rest name)
      | _ => option_map S (list_index rest name)
      end
  end.

(** [fields.index(name)] where it is defined: on a list, and on a string,
    where it is the position of the substring.  [None] stands for
    [ValueError]. *)
Definition fields_index (fields : json) (name : string) : option nat :=
  match fields with
  | JList items => list_index items name
  | JStr s => String.index 0 name s
  | _ => None
  end.

(** The estimate of the diameter inside the inner [try] of [fetch_cad];
    the bare [except] keeps the default 1.0 when [float] raises. *)
Definition cad_diameter (h : json) : R :=
  match py_float float_of_string h with
  | Some H => 1329 / sqrt 0.14 * Rpower 10 (-0.2 * H)
  | None => 1.0
  end.

(** The body of the loop over the rows: the record appended, or [None]
    when the row is over the distance limit or raises. *)
Definition cad_row (des_idx dist_idx v_rel_idx : nat) (h_idx : option nat)
  (row : json) : option sky_object :=
  d <- getitem row (JInt (Z.of_nat dist_idx)) ;;
  dist_au <- py_float float_of_string d ;;
  let dist_km := dist_au * 149597870.7 in
  if Rle_dec dist_km MAX_DISTANCE_KM then
    diameter <-
      match h_idx with
      | None => Some 1.0
      | Some i =>
          h <- getitem row (JInt (Z.of_nat i)) ;;
          if truthy h then Some (cad_diameter h) else Some 1.0
      end ;;
    name <- getitem row (JInt (Z.of_nat des_idx)) ;;
    v <- getitem row (JInt (Z.of_nat v_rel_idx)) ;;
    velocity <- py_float float_of_string v ;;
    Some {| obj_source := "CAD"; obj_name := name; obj_diameter_m := diameter;
            obj_velocity_km_s := velocity; obj_distance_km := dist_km |}
  else None.

(** [fetch_cad] on the outcome of the request.  A "fields" value that is
    falsy, or has no [index] method, or lacks one of the three required
    names ends the call with the empty list. *)
Definition fetch_cad (response : option json) : list sky_object :=
  match response with
  | Some (JDict items) =>
      let fields :=
        match dict_get items "fields" with
        | Some v => v
        | None => JList []
        end in
      if negb (truthy fields) then []
      else
        match fields_index fields "des", fields_index fields "dist",
              fields_index fields "v_rel" with
        | Some des_idx, Some dist_idx, Some v_rel_idx =>
            let h_idx := fields_index fields "h" in
            match dict_get items "data" with
            | None => []
            | Some data =>
                match iterate data with
                | Some rows =>
                    filter_events (cad_row des_idx dist_idx v_rel_idx h_idx) rows
                | None => []
                end
            end
        | _, _, _ => []
        end
  | _ => []
  end.

End CadFeed.

(** *** [fetch_neo]

    A [datetime] is its number of microseconds; the feed is a function of
    the window a request asks for, [None] when the request or its decoding
    raised. *)
Definition timedelta_days (n : Z) : Z := (n * 86400000000)%Z.

(** The windows [(current, chunk_end)] the [while] loop goes through, with
    a bound on the number of passes. *)
Fixpoint neo_windows_from (fuel : nat) (current end_date : Z) : list (Z * Z) :=
  match fuel with
  | O => []
  | S fuel' =>
      if (current <? end_date)%Z then
        let chunk_end := Z.min (current + timedelta_days 7)%Z end_date in
        (current, chunk_end) ::
        neo_windows_from fuel' (chunk_end + timedelta_days 1)%Z end_date
      else []
  end.

(** Every pass moves [current] forward by more than a day, so one pass per
    day of the range, and one more, is enough. *)
Definition neo_windows (start_date end_date : Z) : list (Z * Z) :=
  neo_windows_from
    (Z.to_nat ((end_date - start_date) / timedelta_days 1) + 1)
    start_date end_date.

Section NeoFeed.

Variable float_of_string : string -> option R.

(** The body of the innermost loop: [None] when it raises, [Some None]
    when the object is over the distance limit, [Some (Some record)] when
    a record is appended. *)
Definition neo_object (obj : json) : option (option sky_object) :=
  approaches <- getitem obj (JStr "close_approach_data") ;;
  ca <- getitem approaches (JInt 0) ;;
  miss <- getitem ca (JStr "miss_distance") ;;
  km <- getitem miss (JStr "kilometers") ;;
  dist_km <- py_float float_of_string km ;;
  if Rle_dec dist_km MAX_DISTANCE_KM then
    name <- getitem obj (JStr "name") ;;
    estimated <- getitem obj (JStr "estimated_diameter") ;;
    meters <- getitem estimated (JStr "meters") ;;
    dmax <- getitem meters (JStr "estimated_diameter_max") ;;
    diameter <- py_float float_of_string dmax ;;
    relative <- getitem ca (JStr "relative_velocity") ;;
    kps <- getitem relative (JStr "kilometers_per_second") ;;
    velocity <- py_float float_of_string kps ;;
    Some (Some {| obj_source := "NEO"; obj_name := name;
                  obj_diameter_m := diameter; obj_velocity_km_s := velocity;
                  obj_distance_km := dist_km |})
  else Some None.

(** The loop over the objects of a day: the records appended, and whether
    the loop ran to its end ([false]: an object raised, which leaves the
    whole [try] block). *)
Fixpoint neo_objects (objs : list json) : list sky_object * bool :=
  match objs with
  | [] => ([], true)
  | obj :: rest =>
      match neo_object obj with
      | None => ([], false)
      | Some None => neo_objects rest
      | Some (Some record) =>
          let '(records, finished) := neo_objects rest in
          (record :: records, finished)
      end
  end.

(** The loop over the days of a response. *)
Fixpoint neo_days (table : json) (days : list json) : list sky_object * bool :=
  match days with
  | [] => ([], true)
  | day :: rest =>
      match (objs <- getitem table day ;; iterate objs) with
      | None => ([], false)
      | Some objs =>
          let '(records, finished) := neo_objects objs in
          if finished then
            let '(more, finished') := neo_days table rest in
            ((records ++ more)%list, finished')
          else (records, false)
      end
  end.

(** What one pass through the [try] block appends to [neos]. *)
Definition neo_chunk (response : option json) : list sky_object :=
  match response with
  | Some (JDict items) =>
      match dict_get items "near_earth_objects" with
      | None => []
      | Some table =>
          match iterate table with
          | Some days => fst (neo_days table days)
          | None => []
          end
      end
  | _ => []
  end.

Variable neo_api : Z -> Z -> option json.

Definition fetch_neo (start_date end_date : Z) : list sky_object :=
  flat_map (fun window => neo_chunk (neo_api (fst window) (snd window)))
    (neo_windows start_date end_date).

Variable fireball_api : Z -> Z -> option json.
Variable cad_api : Z -> Z -> option json.

(** *** [main] *)




End NeoFeed.

End MeteorCsvApi.

Import MeteorApiModel MeteorCsvApi.

(** ** Vocabulary of the statements *)

(** The quantity [a] of the haversine formula and the distance the loop
    derives from it, as real-valued expressions. *)
Definition haversine_a (lat lon city_lat city_lon : R) : R :=
  sin (radians (city_lat - lat) / 2) ^ 2 +
  cos (radians lat) * cos (radians city_lat) *
  sin (radians (city_lon - lon) / 2) ^ 2.

Definition great_circle_km (lat lon city_lat city_lon : R) : R :=
  6371 * (2 * asin (sqrt (haversine_a lat lon city_lat city_lon))).

Definition entry_lat (entry : city_entry) : R := fst (fst (snd entry)).
Definition entry_lon (entry : city_entry) : R := snd (fst (snd entry)).

(** Distance of a dictionary entry from the query point. *)
Definition entry_km (lat lon : R) (entry : city_entry) : R :=
  great_circle_km lat lon (entry_lat entry) (entry_lon entry).

(** The input checks of [interactive_predictor], with the ranges of the two
    defaulted arguments. *)
Definition valid_params
  (diameter_m velocity_km_s distance_km lat lon angle_deg density_kg_m3 : R)
  : Prop :=
  0 < diameter_m /\ 0 < velocity_km_s /\ 0 <= distance_km /\
  -90 <= lat <= 90 /\ -180 <= lon <= 180 /\
  0 < angle_deg <= 90 /\ 0 < density_kg_m3.

(** The tier a mitigation text announces in its first line. *)
Inductive risk_tier : Type := LOW | MODERATE | HIGH | EXTREME.

Definition plan_tier (plan : string) : option risk_tier :=
  if prefix "[LOW RISK]" plan then Some LOW
  else if prefix "[MODERATE RISK]" plan then Some MODERATE
  else if prefix "[HIGH RISK]" plan then Some HIGH
  else if prefix "[EXTREME RISK]" plan then Some EXTREME
  else None.

(** Crater diameter and damage radius as closed expressions, for a
    positive mass, speed and sine of the impact angle. *)
Definition crater_expr (mass_kg velocity_m_s sin_angle : R) : R :=
  1.161 * (Rpower mass_kg (1 / 3) * Rpower velocity_m_s 0.44) /
  Rpower 2700 0.22 * Rpower sin_angle 0.33.

Definition mass_expr (diameter_m density_kg_m3 : R) : R :=
  4 / 3 * PI * (diameter_m / 2) ^ 3 * density_kg_m3.

(** Coordinates strictly inside the ranges: no pole, no point of the
    antimeridian. *)
Definition inner_coordinates (entry : city_entry) : Prop :=
  (-90 < entry_lat entry < 90) /\ (-180 < entry_lon entry < 180).



(** A feed object and a string conversion to run the feeds on. *)
Definition sample_parse (s : string) : option R :=
  if String.eqb s "5000000" then Some 5000000
  else if String.eqb s "12.5" then Some 12.5
  else None.

Definition sample_neo : json :=
  JDict [("name", JStr "(2024 AB)");
         ("estimated_diameter",
          JDict [("meters", JDict [("estimated_diameter_max", JFloat 120)])]);
         ("close_approach_data",
          JList [JDict [("miss_distance", JDict [("kilometers", JStr "5000000")]);
                        ("relative_velocity",
                         JDict [("kilometers_per_second", JStr "12.5")])]])].

(** * Verification *)

(** ** Haversine distance *)

Lemma sin_half_sq (x : R) : sin (x / 2) ^ 2 = (1 - cos x) / 2.
Proof.
  replace x with (2 * (x / 2)) at 2 by field.
  rewrite cos_2a_sin. field.
Qed.

Lemma radians_minus (x y : R) : radians (x - y) = radians x - radians y.
Proof. unfold radians. field. Qed.

Lemma unit_dot_bound (s1 c1 s2 c2 k : R) :
  s1 * s1 + c1 * c1 = 1 -> s2 * s2 + c2 * c2 = 1 -> -1 <= k <= 1 ->
  -1 <= s1 * s2 + c1 * c2 * k <= 1.
Proof.
  intros H1 H2 Hk.
  assert (Hc : 0 <= c2 * c2 * ((1 - k) * (1 + k))).
  { apply Rmult_le_pos; [nra | apply Rmult_le_pos; lra]. }
  split.
  - assert (Hs : 0 <= (s1 + s2) * (s1 + s2) + (c1 + c2 * k) * (c1 + c2 * k))
      by (apply Rplus_le_le_0_compat; apply Rle_0_sqr).
    nra.
  - assert (Hs : 0 <= (s1 - s2) * (s1 - s2) + (c1 - c2 * k) * (c1 - c2 * k))
      by (apply Rplus_le_le_0_compat; apply Rle_0_sqr).
    nra.
Qed.

Lemma haversine_a_dot (lat lon city_lat city_lon : R) :
  haversine_a lat lon city_lat city_lon =
  (1 - (sin (radians lat) * sin (radians city_lat) +
        cos (radians lat) * cos (radians city_lat) *
        cos (radians (city_lon - lon)))) / 2.
Proof.
  unfold haversine_a. rewrite !sin_half_sq, radians_minus, cos_minus. field.
Qed.

Lemma haversine_a_range (lat lon city_lat city_lon : R) :
  0 <= haversine_a lat lon city_lat city_lon <= 1.
Proof.
  rewrite haversine_a_dot.
  pose proof (unit_dot_bound (sin (radians lat)) (cos (radians lat))
                (sin (radians city_lat)) (cos (radians city_lat))
                (cos (radians (city_lon - lon)))) as H.
  pose proof (sin2_cos2 (radians lat)) as H1.
  pose proof (sin2_cos2 (radians city_lat)) as H2.
  unfold Rsqr in H1, H2.
  pose proof (COS_bound (radians (city_lon - lon))) as Hk.
  specialize (H H1 H2 Hk). lra.
Qed.

Lemma math_sqrt_some (x : R) : 0 <= x -> math_sqrt x = Some (sqrt x).
Proof. intros H. unfold math_sqrt. destruct (Rle_dec 0 x); [reflexivity | contradiction]. Qed.

Lemma math_asin_some (x : R) : -1 <= x <= 1 -> math_asin x = Some (asin x).
Proof.
  intros [H1 H2]. unfold math_asin.
  destruct (Rle_dec (-1) x); [| contradiction].
  destruct (Rle_dec x 1); [reflexivity | contradiction].
Qed.

Lemma sqrt_unit (a : R) : 0 <= a <= 1 -> 0 <= sqrt a <= 1.
Proof.
  intros [H0 H1]. split; [apply sqrt_pos |].
  rewrite <- sqrt_1. apply sqrt_le_1_alt. exact H1.
Qed.

Lemma haversine_distance_eq (lat lon city_lat city_lon : R) :
  haversine_distance lat lon city_lat city_lon =
  Some (great_circle_km lat lon city_lat city_lon).
Proof.
  unfold haversine_distance, great_circle_km.
  fold (haversine_a lat lon city_lat city_lon).
  pose proof (haversine_a_range lat lon city_lat city_lon) as Ha.
  rewrite (math_sqrt_some _ (proj1 Ha)). cbn [bind].
  pose proof (sqrt_unit _ Ha) as Hs.
  rewrite math_asin_some by lra. reflexivity.
Qed.

Lemma asin_nonneg (x : R) : 0 <= x <= 1 -> 0 <= asin x.
Proof.
  intros Hx. destruct (Rle_lt_dec 0 (asin x)) as [H | H]; [exact H | exfalso].
  pose proof (asin_bound x) as Hb. pose proof PI_RGT_0 as Hpi.
  assert (Hs : sin (asin x) < 0) by (apply sin_lt_0_var; lra).
  rewrite sin_asin in Hs by lra. lra.
Qed.

Lemma asin_pos (x : R) : 0 < x <= 1 -> 0 < asin x.
Proof.
  intros Hx. destruct (asin_nonneg x) as [H | H]; [lra | exact H |].
  exfalso. assert (Hs : sin (asin x) = x) by (apply sin_asin; lra).
  rewrite <- H, sin_0 in Hs. lra.
Qed.

Lemma great_circle_nonneg (lat lon city_lat city_lon : R) :
  0 <= great_circle_km lat lon city_lat city_lon.
Proof.
  unfold great_circle_km.
  pose proof (asin_nonneg _ (sqrt_unit _ (haversine_a_range lat lon city_lat city_lon))).
  lra.
Qed.

Lemma great_circle_self (lat lon : R) : great_circle_km lat lon lat lon = 0.
Proof.
  unfold great_circle_km, haversine_a, radians.
  replace ((lat - lat) * PI / 180 / 2) with 0 by field.
  replace ((lon - lon) * PI / 180 / 2) with 0 by field.
  rewrite sin_0.
  replace (0 ^ 2 + _ * 0 ^ 2) with 0 by ring.
  rewrite sqrt_0, asin_0. ring.
Qed.

Lemma sin_nonzero (x : R) : - PI < x < PI -> x <> 0 -> sin x <> 0.
Proof.
  intros [Hl Hu] Hx.
  destruct (Rtotal_order x 0) as [H | [H | H]]; [| contradiction |].
  - pose proof (sin_lt_0_var x Hl H). lra.
  - pose proof (sin_gt_0 x H Hu). lra.
Qed.

Lemma half_radians_nonzero (d : R) : d <> 0 -> radians d / 2 <> 0.
Proof.
  intros Hd E. unfold radians in E.
  assert (E' : d * PI = 0) by lra.
  apply Rmult_integral in E'. pose proof PI_RGT_0. destruct E'; lra.
Qed.

Lemma sq_pos (x : R) : x <> 0 -> 0 < x ^ 2.
Proof. intros H. nra. Qed.

Lemma haversine_a_pos (lat lon city_lat city_lon : R) :
  -90 < lat < 90 -> -90 < city_lat < 90 ->
  -180 < lon < 180 -> -180 < city_lon < 180 ->
  (city_lat, city_lon) <> (lat, lon) ->
  0 < haversine_a lat lon city_lat city_lon.
Proof.
  intros Hlat Hclat Hlon Hclon Hne.
  pose proof PI_RGT_0 as Hpi.
  assert (Hc1 : 0 < cos (radians lat)).
  { apply cos_gt_0; unfold radians; nra. }
  assert (Hc2 : 0 < cos (radians city_lat)).
  { apply cos_gt_0; unfold radians; nra. }
  unfold haversine_a.
  set (x := radians (city_lat - lat) / 2).
  set (y := radians (city_lon - lon) / 2).
  assert (Hx2 : 0 <= sin x ^ 2) by (apply pow2_ge_0).
  assert (Hy2 : 0 <= sin y ^ 2) by (apply pow2_ge_0).
  assert (Hcc : 0 < cos (radians lat) * cos (radians city_lat))
    by (apply Rmult_lt_0_compat; assumption).
  destruct (Req_dec city_lat lat) as [El | Nl].
  - assert (Nn : city_lon <> lon) by (intros E; apply Hne; congruence).
    assert (Hy : 0 < sin y ^ 2).
    { apply sq_pos, sin_nonzero.
      - unfold y, radians; split; nra.
      - apply half_radians_nonzero; lra. }
    nra.
  - assert (Hx : 0 < sin x ^ 2).
    { apply sq_pos, sin_nonzero.
      - unfold x, radians; split; nra.
      - apply half_radians_nonzero; lra. }
    nra.
Qed.

Lemma great_circle_pos (lat lon city_lat city_lon : R) :
  -90 < lat < 90 -> -90 < city_lat < 90 ->
  -180 < lon < 180 -> -180 < city_lon < 180 ->
  (city_lat, city_lon) <> (lat, lon) ->
  0 < great_circle_km lat lon city_lat city_lon.
Proof.
  intros H1 H2 H3 H4 H5.
  pose proof (haversine_a_pos _ _ _ _ H1 H2 H3 H4 H5) as Ha.
  pose proof (haversine_a_range lat lon city_lat city_lon) as Hr.
  unfold great_circle_km.
  assert (Hs : 0 < sqrt (haversine_a lat lon city_lat city_lon) <= 1).
  { split; [apply sqrt_lt_R0; exact Ha | apply sqrt_unit; exact Hr]. }
  pose proof (asin_pos _ Hs). lra.
Qed.


(** *** Rounding *)


Lemma round_half_even_IZR (z : Z) : round_half_even (IZR z) = z.
Proof.
  unfold round_half_even. rewrite ZfloorZ.
  destruct (Rlt_dec (IZR z - IZR z) (1 / 2)); [reflexivity | lra].
Qed.





Lemma round_zero (ndigits : nat) : round 0 ndigits = 0.
Proof.
  unfold round. rewrite Rmult_0_l.
  change 0 with (IZR 0) at 1. rewrite round_half_even_IZR.
  unfold Rdiv. apply Rmult_0_l.
Qed.

Lemma round_half_even_below (x : R) (z : Z) :
  IZR z <= x < IZR z + 1 / 2 -> round_half_even x = z.
Proof.
  intros H. unfold round_half_even.
  rewrite (Zfloor_eq z x) by lra.
  destruct (Rlt_dec (x - IZR z) (1 / 2)); [reflexivity | lra].
Qed.

Lemma round_half_even_above (x : R) (z : Z) :
  IZR z + 1 / 2 < x < IZR z + 1 -> round_half_even x = (z + 1)%Z.
Proof.
  intros H. unfold round_half_even.
  rewrite (Zfloor_eq z x) by lra.
  destruct (Rlt_dec (x - IZR z) (1 / 2)); [lra |].
  destruct (Rlt_dec (1 / 2) (x - IZR z)); [reflexivity | lra].
Qed.

Lemma round_half_even_tie (z : Z) :
  round_half_even (IZR z + 1 / 2) = if Z.even z then z else (z + 1)%Z.
Proof.
  unfold round_half_even.
  rewrite (Zfloor_eq z (IZR z + 1 / 2)) by lra.
  destruct (Rlt_dec (IZR z + 1 / 2 - IZR z) (1 / 2)); [lra |].
  destruct (Rlt_dec (1 / 2) (IZR z + 1 / 2 - IZR z)); [lra | reflexivity].
Qed.

(** *** The primitives on sample values *)

Example round_ties_to_even :
  round 0.25 1 = 0.2 /\ round 0.75 1 = 0.8 /\ round 99.96 1 = 100.
Proof.
  unfold round. repeat split.
  - replace (0.25 * 10 ^ 1) with (IZR 2 + 1 / 2) by lra.
    rewrite round_half_even_tie. cbn [Z.even]. lra.
  - replace (0.75 * 10 ^ 1) with (IZR 7 + 1 / 2) by lra.
    rewrite round_half_even_tie. cbn. lra.
  - rewrite (round_half_even_above (99.96 * 10 ^ 1) 999) by lra. cbn. lra.
Qed.

Example int_truncates : int 2.5 = 2%Z /\ int (-2.5) = (-2)%Z.
Proof.
  unfold int. split.
  - destruct (Rle_dec 0 2.5); [| lra]. apply Zfloor_eq. lra.
  - destruct (Rle_dec 0 (-2.5)); [lra |].
    rewrite (Zfloor_eq 2 (- -2.5)) by lra. reflexivity.
Qed.

Example list_getitem_indices :
  list_getitem [10; 20; 30]%Z 2 = Some 30%Z /\
  list_getitem [10; 20; 30]%Z (-1) = Some 30%Z /\
  list_getitem [10; 20; 30]%Z 3 = None /\
  list_getitem [10; 20; 30]%Z (-4) = None.
Proof. repeat split. Qed.

Example format_1f_sample : format_1f 12.34 = "12.3"%string.
Proof.
  unfold format_1f.
  destruct (Rlt_dec 12.34 0); [lra |].
  rewrite Rabs_pos_eq by lra.
  rewrite (round_half_even_below (12.34 * 10) 123) by lra.
  reflexivity.
Qed.

Example partial_calls_fail :
  math_sqrt (-1) = None /\ math_asin 2 = None /\
  float_pow (-8) (1 / 3) = None /\ float_pow 0 0.44 = Some 0.
Proof.
  unfold math_sqrt, math_asin, float_pow. repeat split.
  - destruct (Rle_dec 0 (-1)); [lra | reflexivity].
  - destruct (Rle_dec (-1) 2); [| lra]. destruct (Rle_dec 2 1); [lra | reflexivity].
  - destruct (Rlt_dec 0 (-8)); [lra |].
    destruct (Req_dec_T (-8) 0); [lra | reflexivity].
  - destruct (Rlt_dec 0 0); [lra |].
    destruct (Req_dec_T 0 0); [| lra].
    destruct (Rlt_dec 0 0.44); [reflexivity | lra].
Qed.

(** *** The nearest-city scan *)

Lemma lt_float_trans (x y : R) (m : pyfloat) :
  x < y -> lt_float y m = true -> lt_float x m = true.
Proof.
  destruct m as [r |]; cbn; [| reflexivity].
  intros Hxy. destruct (Rlt_dec y r); [| discriminate].
  intros _. destruct (Rlt_dec x r); [reflexivity | lra].
Qed.

Lemma lt_float_false_lt (x y : R) (m : pyfloat) :
  lt_float x m = false -> lt_float y m = true -> y < x.
Proof.
  destruct m as [r |]; cbn; [| discriminate].
  destruct (Rlt_dec x r); [discriminate |].
  destruct (Rlt_dec y r); [| discriminate].
  intros _ _. lra.
Qed.

Lemma lt_float_Fin (x y : R) : lt_float x (Fin y) = true <-> x < y.
Proof. cbn. destruct (Rlt_dec x y); split; intros; auto; try discriminate; contradiction. Qed.

Lemma lt_float_Fin_false (x y : R) : lt_float x (Fin y) = false <-> y <= x.
Proof. cbn. destruct (Rlt_dec x y); split; intros; auto; try discriminate; lra. Qed.

Section NearestLoop.

Variables lat lon : R.

Lemma nearest_step_eq (m : pyfloat) (n : string) (entry : city_entry) :
  nearest_step lat lon (m, n) entry =
  Some (if lt_float (entry_km lat lon entry) m
        then (Fin (entry_km lat lon entry), fst entry) else (m, n)).
Proof.
  destruct entry as [city [[city_lat city_lon] population]].
  unfold nearest_step, entry_km, entry_lat, entry_lon. cbn [fst snd].
  rewrite haversine_distance_eq. cbn [bind].
  destruct (lt_float _ m); reflexivity.
Qed.

(** The loop returns the first entry of least distance, unless no entry
    is closer than the state it started from. *)
Lemma nearest_loop_spec (cities : list city_entry) :
  forall (m : pyfloat) (n : string),
  exists (m' : pyfloat) (n' : string),
    nearest_loop lat lon cities (m, n) = Some (m', n') /\
    ((m' = m /\ n' = n /\
      Forall (fun e => lt_float (entry_km lat lon e) m = false) cities) \/
     (exists l1 e l2,
        cities = (l1 ++ e :: l2)%list /\
        m' = Fin (entry_km lat lon e) /\ n' = fst e /\
        lt_float (entry_km lat lon e) m = true /\
        Forall (fun e' => entry_km lat lon e < entry_km lat lon e') l1 /\
        Forall (fun e' => entry_km lat lon e <= entry_km lat lon e') l2)).
Proof.
  induction cities as [| e rest IH]; intros m n.
  - exists m, n. split; [reflexivity |]. left. auto.
  - cbn [nearest_loop]. rewrite nearest_step_eq. cbn [bind].
    destruct (lt_float (entry_km lat lon e) m) eqn:Hlt.
    + destruct (IH (Fin (entry_km lat lon e)) (fst e))
        as (m' & n' & Hrun & [(Hm & Hn & Hall) | (l1 & e2 & l2 & Hc & Hm & Hn & Hlt2 & H1 & H2)]).
      * exists m', n'. split; [exact Hrun |]. right.
        exists [], e, rest. subst m' n'. repeat split; auto.
        eapply Forall_impl; [| exact Hall].
        intros a Ha. apply lt_float_Fin_false in Ha. exact Ha.
      * exists m', n'. split; [exact Hrun |]. right.
        exists (e :: l1), e2, l2. subst rest. apply lt_float_Fin in Hlt2.
        repeat split; auto.
        -- eapply lt_float_trans; eauto.
    + destruct (IH m n)
        as (m' & n' & Hrun & [(Hm & Hn & Hall) | (l1 & e2 & l2 & Hc & Hm & Hn & Hlt2 & H1 & H2)]).
      * exists m', n'. split; [exact Hrun |]. left. auto.
      * exists m', n'. split; [exact Hrun |]. right.
        exists (e :: l1), e2, l2. subst rest.
        repeat split; auto.
        constructor; [| exact H1]. eapply lt_float_false_lt; eauto.
Qed.

Lemma nearest_loop_app (l1 l2 : list city_entry) :
  forall st,
  nearest_loop lat lon (l1 ++ l2)%list st =
  (st' <- nearest_loop lat lon l1 st ;; nearest_loop lat lon l2 st').
Proof.
  induction l1 as [| e l1 IH]; intros st; cbn [nearest_loop app bind].
  - reflexivity.
  - destruct (nearest_step lat lon st e) as [st' |]; cbn [bind]; [apply IH | reflexivity].
Qed.

Lemma nearest_loop_from_zero (cities : list city_entry) (n : string) :
  nearest_loop lat lon cities (Fin 0, n) = Some (Fin 0, n).
Proof.
  destruct (nearest_loop_spec cities (Fin 0) n)
    as (m' & n' & Hrun & [(Hm & Hn & _) | (l1 & e & l2 & _ & _ & _ & Hlt & _)]).
  - subst. exact Hrun.
  - apply lt_float_Fin in Hlt.
    pose proof (great_circle_nonneg lat lon (entry_lat e) (entry_lon e)).
    unfold entry_km in Hlt. lra.
Qed.

End NearestLoop.

(** Querying the coordinates of an entry that no earlier entry is at
    distance 0 from gives that entry, at distance 0. *)
Lemma nearest_at_listed (p s : list city_entry) (c : city_entry) :
  Forall (fun e => 0 < entry_km (entry_lat c) (entry_lon c) e) p ->
  find_nearest_city_in (p ++ c :: s)%list (entry_lat c) (entry_lon c) =
  Some (fst c, Fin 0).
Proof.
  intros Hp. unfold find_nearest_city_in.
  rewrite nearest_loop_app.
  set (lat := entry_lat c) in *. set (lon := entry_lon c) in *.
  assert (Hc : entry_km lat lon c = 0) by (apply great_circle_self).
  destruct (nearest_loop_spec lat lon p Inf "Unknown location")
    as (m' & n' & Hrun & Hcase).
  rewrite Hrun. cbn [bind nearest_loop]. rewrite nearest_step_eq.
  assert (Hlt : lt_float (entry_km lat lon c) m' = true).
  { destruct Hcase as [(Hm & _) | (l1 & e & l2 & Hl & Hm & _ & _ & _ & _)].
    - subst m'. reflexivity.
    - subst m'. apply lt_float_Fin. rewrite Hc.
      rewrite Forall_forall in Hp. apply Hp. subst p.
      apply in_or_app. right. left. reflexivity. }
  rewrite Hlt, Hc. cbn [bind].
  rewrite nearest_loop_from_zero. cbn [bind round_float].
  rewrite round_zero. reflexivity.
Qed.

Lemma find_nearest_city_in_spec (cities : list city_entry) (lat lon : R) :
  (cities = [] /\
   find_nearest_city_in cities lat lon = Some ("Unknown location", Inf)) \/
  (exists l1 e l2,
     cities = (l1 ++ e :: l2)%list /\
     find_nearest_city_in cities lat lon =
       Some (fst e, Fin (round (entry_km lat lon e) 2)) /\
     Forall (fun e' => entry_km lat lon e < entry_km lat lon e') l1 /\
     Forall (fun e' => entry_km lat lon e <= entry_km lat lon e') l2).
Proof.
  unfold find_nearest_city_in.
  destruct (nearest_loop_spec lat lon cities Inf "Unknown location")
    as (m' & n' & Hrun & [(Hm & Hn & Hall) | (l1 & e & l2 & Hc & Hm & Hn & _ & H1 & H2)]).
  - left. destruct cities as [| e rest].
    + split; reflexivity.
    + inversion Hall as [| ? ? Hbad _]. cbn in Hbad. discriminate.
  - right. exists l1, e, l2. rewrite Hrun. subst m' n'. cbn [bind round_float].
    repeat split; assumption.
Qed.

Lemma find_nearest_city_total (lat lon : R) :
  exists name d, find_nearest_city lat lon = Some (name, d).
Proof.
  unfold find_nearest_city.
  destruct (find_nearest_city_in_spec MAJOR_CITIES lat lon)
    as [[_ H] | (l1 & e & l2 & _ & H & _)]; rewrite H; eauto.
Qed.


Lemma MAJOR_CITIES_inner : Forall inner_coordinates MAJOR_CITIES.
Proof.
  unfold MAJOR_CITIES.
  repeat (apply Forall_cons;
          [unfold inner_coordinates, entry_lat, entry_lon; cbn [fst snd]; lra |]).
  apply Forall_nil.
Qed.


(** ** The nearest-city lookup *)




(** C5: at the coordinates of a listed center that no earlier-listed center
    shares, the lookup returns that center's name and the distance 0.00. *)
Theorem find_nearest_city_at_listed_center
  (i : nat) (name : string) (lat lon : R) (population : Z) :
  nth_error MAJOR_CITIES i = Some (name, (lat, lon, population)) ->
  (forall j e, (j < i)%nat -> nth_error MAJOR_CITIES j = Some e ->
               (entry_lat e, entry_lon e) <> (lat, lon)) ->
  great_circle_km lat lon lat lon = 0 /\
  find_nearest_city lat lon = Some (name, Fin 0).
Proof.
  intros Hi Hearlier. split; [apply great_circle_self |].
  destruct (nth_error_split _ _ Hi) as (p & s & Hsplit & Hlen).
  pose proof MAJOR_CITIES_inner as Hin. rewrite Forall_forall in Hin.
  assert (Hc : inner_coordinates (name, (lat, lon, population))).
  { apply Hin. eapply nth_error_In; eassumption. }
  unfold find_nearest_city. rewrite Hsplit.
  apply (nearest_at_listed p s (name, (lat, lon, population))).
  rewrite Forall_forall. intros e He.
  destruct (In_nth_error _ _ He) as [j Hj].
  assert (Hjlt : (j < i)%nat).
  { rewrite <- Hlen. apply nth_error_Some. rewrite Hj. discriminate. }
  assert (Hj' : nth_error MAJOR_CITIES j = Some e).
  { rewrite Hsplit, nth_error_app1; [exact Hj | lia]. }
  assert (He' : inner_coordinates e).
  { apply Hin. eapply nth_error_In; eassumption. }
  destruct Hc as [Hc1 Hc2]. destruct He' as [He1 He2].
  unfold entry_km. apply great_circle_pos; try assumption.
  apply (Hearlier j e Hjlt Hj').
Qed.

Lemma find_nearest_city_at_listed_center_witness :
  great_circle_km 34.0522 (-118.2437) 34.0522 (-118.2437) = 0 /\
  find_nearest_city 34.0522 (-118.2437) = Some ("Los Angeles, USA", Fin 0).
Proof.
  apply (find_nearest_city_at_listed_center 1 "Los Angeles, USA"
           34.0522 (-118.2437) 3979576%Z).
  - reflexivity.
  - intros j e Hj He.
    assert (j = 0)%nat by lia. subst j. cbn in He. injection He as <-.
    unfold entry_lat, entry_lon. cbn [fst snd].
    intros E. injection E as E1 E2. lra.
Defined.

(** ** The impact simulator *)

Lemma float_pow_pos (x y : R) : 0 < x -> float_pow x y = Some (Rpower x y).
Proof.
  intros H. unfold float_pow. destruct (Rlt_dec 0 x); [reflexivity | contradiction].
Qed.

Lemma Rpower_pos (x y : R) : 0 < Rpower x y.
Proof. unfold Rpower. apply exp_pos. Qed.

Lemma bind_some {A B : Type} (m : option A) (k : A -> option B) (b : B) :
  bind m k = Some b -> exists a, m = Some a /\ k a = Some b.
Proof. destruct m as [a |]; cbn; [eauto | discriminate]. Qed.

Lemma Some_inj {A : Type} (a b : A) : Some a = Some b -> a = b.
Proof. intros H. injection H as H. exact H. Qed.

(** What a successful run stores in each field of the result. *)
Lemma simulate_inv
  (diameter_m velocity_km_s distance_km lat lon angle_deg density_kg_m3 : R)
  (r : ImpactResult) :
  simulate_meteor_impact diameter_m velocity_km_s distance_km lat lon
    angle_deg density_kg_m3 = Some r ->
  mass_kg r = mass_expr diameter_m density_kg_m3 /\
  impact_energy_j r =
    0.5 * mass_kg r * (velocity_km_s * 1000) ^ 2 * sin (radians angle_deg) /\
  impact_energy_mt r = impact_energy_j r / 4.184e15 /\
  (exists mass_pow velocity_pow density_pow angle_pow,
     float_pow (mass_kg r) (1 / 3) = Some mass_pow /\
     float_pow (velocity_km_s * 1000) 0.44 = Some velocity_pow /\
     float_pow 2700 0.22 = Some density_pow /\
     float_pow (sin (radians angle_deg)) 0.33 = Some angle_pow /\
     crater_diameter_m r =
       1.161 * (mass_pow * velocity_pow) / density_pow * angle_pow) /\
  damage_radius_km r = crater_diameter_m r / 1000 * 20 /\
  proximity_risk r = Rmin 100 (Rmax 0 ((1e7 - distance_km) / 1e5)) /\
  impact_risk r =
    (if Rlt_dec (impact_energy_mt r) 0.01 then 5
     else if Rlt_dec (impact_energy_mt r) 1 then
       Rmin 50 (20 + damage_radius_km r)
     else if Rlt_dec (impact_energy_mt r) 1000 then
       Rmin 80 (50 + damage_radius_km r * 0.5)
     else Rmin 100 (80 + damage_radius_km r * 0.1)) /\
  combined_risk_factor r =
    round (Rmin 100 (Rmax 0 (proximity_risk r * 0.4 + impact_risk r * 0.6))) 1 /\
  (impact_classification r, casualty_estimate r) =
    (if Rlt_dec (impact_energy_mt r) 0.01 then
       ("Small fireball — harmless airburst",
        "0-10 (minor injuries from debris)")
     else if Rlt_dec (impact_energy_mt r) 1 then
       ("Tunguska-scale regional event",
        "100s-1,000s (within 50km radius)")
     else if Rlt_dec (impact_energy_mt r) 1000 then
       ("City to country-scale devastation",
        "10,000s-100,000s (regional catastrophe)")
     else
       ("Global catastrophic impact",
        "Millions to billions (mass extinction event)")) /\
  find_nearest_city lat lon = Some (nearest_city r, city_distance_km r) /\
  city_affected r = float_le (city_distance_km r) (damage_radius_km r).
Proof.
  unfold simulate_meteor_impact. intros H.
  apply bind_some in H. destruct H as (mass_pow & Hmp & H).
  apply bind_some in H. destruct H as (velocity_pow & Hvp & H).
  apply bind_some in H. destruct H as (density_pow & Hdp & H).
  apply bind_some in H. destruct H as (angle_pow & Hap & H).
  destruct (Rlt_dec _ 0.01) as [H1 | H1];
    [| destruct (Rlt_dec _ 1) as [H2 | H2];
       [| destruct (Rlt_dec _ 1000) as [H3 | H3]]];
    apply bind_some in H; destruct H as ([n d] & Hfind & H);
    apply Some_inj in H; subst r; cbn [mass_kg impact_energy_j impact_energy_mt
      crater_diameter_m damage_radius_km proximity_risk impact_risk
      combined_risk_factor impact_classification casualty_estimate
      nearest_city city_distance_km city_affected];
    fold (mass_expr diameter_m density_kg_m3);
    repeat (split; [reflexivity |]);
    (split; [exists mass_pow, velocity_pow, density_pow, angle_pow;
             repeat split; assumption |]);
    unfold mass_expr;
    repeat match goal with
      | |- context [Rlt_dec ?a ?b] => destruct (Rlt_dec a b); try contradiction
      end;
    repeat split; try reflexivity; exact Hfind.
Qed.

Lemma mass_expr_pos (diameter_m density_kg_m3 : R) :
  0 < diameter_m -> 0 < density_kg_m3 -> 0 < mass_expr diameter_m density_kg_m3.
Proof.
  intros Hd Hr. unfold mass_expr. pose proof PI_RGT_0 as Hpi.
  assert (H3 : 0 < (diameter_m / 2) ^ 3) by (apply pow_lt; lra).
  apply Rmult_lt_0_compat; [| exact Hr].
  apply Rmult_lt_0_compat; [| exact H3].
  apply Rmult_lt_0_compat; lra.
Qed.

Lemma sin_angle_pos (angle_deg : R) :
  0 < angle_deg <= 90 -> 0 < sin (radians angle_deg).
Proof.
  intros [H0 H90]. pose proof PI_RGT_0 as Hpi.
  apply sin_gt_0; unfold radians; nra.
Qed.

Lemma crater_expr_pos (m v s : R) : 0 < crater_expr m v s.
Proof.
  unfold crater_expr.
  pose proof (Rpower_pos m (1 / 3)). pose proof (Rpower_pos v 0.44).
  pose proof (Rpower_pos 2700 0.22). pose proof (Rpower_pos s 0.33).
  apply Rmult_lt_0_compat; [| assumption].
  apply Rdiv_lt_0_compat; [| assumption].
  apply Rmult_lt_0_compat; [lra |].
  apply Rmult_lt_0_compat; assumption.
Qed.

(** For a positive diameter, speed and density and an angle in (0, 90] the
    simulator returns a report, and the crater and damage radius in it are
    the closed expressions. *)
Lemma simulate_runs
  (diameter_m velocity_km_s distance_km lat lon angle_deg density_kg_m3 : R) :
  0 < diameter_m -> 0 < velocity_km_s -> 0 < angle_deg <= 90 ->
  0 < density_kg_m3 ->
  exists r,
    simulate_meteor_impact diameter_m velocity_km_s distance_km lat lon
      angle_deg density_kg_m3 = Some r /\
    crater_diameter_m r =
      crater_expr (mass_expr diameter_m density_kg_m3)
        (velocity_km_s * 1000) (sin (radians angle_deg)) /\
    0 < damage_radius_km r.
Proof.
  intros Hd Hv Hang Hdens.
  pose proof (mass_expr_pos _ _ Hd Hdens) as Hm.
  pose proof (sin_angle_pos _ Hang) as Hs.
  assert (Hvm : 0 < velocity_km_s * 1000) by lra.
  assert (Hrun : exists r,
    simulate_meteor_impact diameter_m velocity_km_s distance_km lat lon
      angle_deg density_kg_m3 = Some r).
  { unfold simulate_meteor_impact. fold (mass_expr diameter_m density_kg_m3).
    rewrite (float_pow_pos _ _ Hm), (float_pow_pos _ _ Hvm),
      (float_pow_pos 2700 0.22) by lra.
    rewrite (float_pow_pos _ _ Hs). cbn [bind].
    destruct (find_nearest_city_total lat lon) as (n & d & Hfind).
    rewrite Hfind. cbn [bind].
    repeat match goal with
      | |- context [Rlt_dec ?a ?b] => destruct (Rlt_dec a b)
      end; eexists; reflexivity. }
  destruct Hrun as [r Hrun]. exists r. split; [exact Hrun |].
  destruct (simulate_inv _ _ _ _ _ _ _ _ Hrun)
    as (Hmass & _ & _ & (mp & vp & dp & ap & Hmp & Hvp & Hdp & Hap & Hcr) & Hdr & _).
  rewrite Hmass in Hmp.
  rewrite (float_pow_pos _ _ Hm) in Hmp. rewrite (float_pow_pos _ _ Hvm) in Hvp.
  rewrite float_pow_pos in Hdp by lra. rewrite (float_pow_pos _ _ Hs) in Hap.
  apply Some_inj in Hmp, Hvp, Hdp, Hap. subst mp vp dp ap.
  fold (crater_expr (mass_expr diameter_m density_kg_m3) (velocity_km_s * 1000)
          (sin (radians angle_deg))) in Hcr.
  split; [exact Hcr |].
  rewrite Hdr, Hcr.
  pose proof (crater_expr_pos (mass_expr diameter_m density_kg_m3)
                (velocity_km_s * 1000) (sin (radians angle_deg))).
  lra.
Qed.

Lemma simulate_valid
  (diameter_m velocity_km_s distance_km lat lon angle_deg density_kg_m3 : R) :
  valid_params diameter_m velocity_km_s distance_km lat lon
    angle_deg density_kg_m3 ->
  exists r,
    simulate_meteor_impact diameter_m velocity_km_s distance_km lat lon
      angle_deg density_kg_m3 = Some r /\
    crater_diameter_m r =
      crater_expr (mass_expr diameter_m density_kg_m3)
        (velocity_km_s * 1000) (sin (radians angle_deg)) /\
    0 < damage_radius_km r.
Proof.
  intros (Hd & Hv & _ & _ & _ & Hang & Hdens).
  apply simulate_runs; assumption.
Qed.










(** C4: an energy of exactly 0.01, 1 or 1000 megatons takes the formula,
    the classification and the casualty band of the tier above the
    boundary. *)
Theorem simulate_boundary_upper_tier
  (diameter_m velocity_km_s distance_km lat lon angle_deg density_kg_m3 : R)
  (r : ImpactResult) :
  simulate_meteor_impact diameter_m velocity_km_s distance_km lat lon
    angle_deg density_kg_m3 = Some r ->
  (impact_energy_mt r = 0.01 ->
   impact_risk r = Rmin 50 (20 + damage_radius_km r) /\
   impact_classification r = "Tunguska-scale regional event" /\
   casualty_estimate r = "100s-1,000s (within 50km radius)") /\
  (impact_energy_mt r = 1 ->
   impact_risk r = Rmin 80 (50 + 0.5 * damage_radius_km r) /\
   impact_classification r = "City to country-scale devastation" /\
   casualty_estimate r = "10,000s-100,000s (regional catastrophe)") /\
  (impact_energy_mt r = 1000 ->
   impact_risk r = Rmin 100 (80 + 0.1 * damage_radius_km r) /\
   impact_classification r = "Global catastrophic impact" /\
   casualty_estimate r = "Millions to billions (mass extinction event)").
Proof.
  intros Hrun.
  destruct (simulate_inv _ _ _ _ _ _ _ _ Hrun)
    as (_ & _ & _ & _ & _ & _ & Himp & _ & Hclass & _).
  split; [| split]; intros E; rewrite E in Himp, Hclass;
    repeat match type of Himp with
      | context [Rlt_dec ?a ?b] => destruct (Rlt_dec a b); try lra
      end;
    injection Hclass as Hc1 Hc2;
    (split; [rewrite Himp; f_equal; ring | split; assumption]).
Qed.

(** A body of diameter 2 m at 1 km/s and 90 degrees whose density is
    [k / PI] carries [k / 6.276e9] megatons. *)
Lemma boundary_probe_energy (k distance_km lat lon : R) (r : ImpactResult) :
  simulate_meteor_impact 2 1 distance_km lat lon 90 (k / PI) = Some r ->
  impact_energy_mt r = k / 6.276e9.
Proof.
  intros Hrun.
  destruct (simulate_inv _ _ _ _ _ _ _ _ Hrun) as (Hm & He & Hmt & _).
  rewrite Hmt, He, Hm. unfold mass_expr, radians.
  replace (90 * PI / 180) with (PI / 2) by field.
  rewrite sin_PI2. pose proof PI_RGT_0 as Hpi.
  set (q := k / PI).
  assert (Hq : PI * q = k) by (unfold q; field; lra).
  lra.
Qed.

Lemma boundary_probe_valid (k : R) :
  0 < k -> valid_params 2 1 0 0 0 90 (k / PI).
Proof.
  intros Hk. unfold valid_params. pose proof PI_RGT_0.
  repeat split; try lra. apply Rdiv_lt_0_compat; lra.
Qed.

Lemma simulate_boundary_upper_tier_witness :
  exists r1 r2 r3,
    (simulate_meteor_impact 2 1 0 0 0 90 (6.276e7 / PI) = Some r1 /\
     impact_energy_mt r1 = 0.01 /\
     impact_risk r1 = Rmin 50 (20 + damage_radius_km r1)) /\
    (simulate_meteor_impact 2 1 0 0 0 90 (6.276e9 / PI) = Some r2 /\
     impact_energy_mt r2 = 1 /\
     impact_risk r2 = Rmin 80 (50 + 0.5 * damage_radius_km r2)) /\
    (simulate_meteor_impact 2 1 0 0 0 90 (6.276e12 / PI) = Some r3 /\
     impact_energy_mt r3 = 1000 /\
     impact_risk r3 = Rmin 100 (80 + 0.1 * damage_radius_km r3)).
Proof.
  destruct (simulate_valid _ _ _ _ _ _ _ (boundary_probe_valid 6.276e7 ltac:(lra)))
    as (r1 & H1 & _).
  destruct (simulate_valid _ _ _ _ _ _ _ (boundary_probe_valid 6.276e9 ltac:(lra)))
    as (r2 & H2 & _).
  destruct (simulate_valid _ _ _ _ _ _ _ (boundary_probe_valid 6.276e12 ltac:(lra)))
    as (r3 & H3 & _).
  assert (E1 : impact_energy_mt r1 = 0.01)
    by (rewrite (boundary_probe_energy _ _ _ _ _ H1); lra).
  assert (E2 : impact_energy_mt r2 = 1)
    by (rewrite (boundary_probe_energy _ _ _ _ _ H2); lra).
  assert (E3 : impact_energy_mt r3 = 1000)
    by (rewrite (boundary_probe_energy _ _ _ _ _ H3); lra).
  exists r1, r2, r3.
  split; [| split].
  - split; [exact H1 |]. split; [exact E1 |].
    exact (proj1 (proj1 (simulate_boundary_upper_tier _ _ _ _ _ _ _ _ H1) E1)).
  - split; [exact H2 |]. split; [exact E2 |].
    exact (proj1 (proj1 (proj2 (simulate_boundary_upper_tier _ _ _ _ _ _ _ _ H2)) E2)).
  - split; [exact H3 |]. split; [exact E3 |].
    exact (proj1 (proj2 (proj2 (simulate_boundary_upper_tier _ _ _ _ _ _ _ _ H3)) E3)).
Defined.



(** ** Mitigation tiers *)

Lemma plan_tier_low (nearest_city : string) :
  plan_tier (low_risk_plan nearest_city) = Some LOW.
Proof. reflexivity. Qed.

Lemma plan_tier_moderate (city_affected : bool) (nearest_city : string)
  (damage_radius_km : R) :
  plan_tier (moderate_risk_plan city_affected nearest_city damage_radius_km) =
  Some MODERATE.
Proof. reflexivity. Qed.

Lemma plan_tier_high (city_affected : bool) (nearest_city : string)
  (damage_radius_km : R) :
  plan_tier (high_risk_plan city_affected nearest_city damage_radius_km) =
  Some HIGH.
Proof. reflexivity. Qed.

Lemma plan_tier_extreme (nearest_city : string) :
  plan_tier (extreme_risk_plan nearest_city) = Some EXTREME.
Proof. reflexivity. Qed.

Lemma strategy_below_20 (risk : R) (ca : bool) (nc : string) (dr : R) :
  risk < 20 -> get_mitigation_strategy risk ca nc dr = low_risk_plan nc.
Proof.
  intros H. unfold get_mitigation_strategy.
  destruct (Rlt_dec risk 20); [reflexivity | contradiction].
Qed.

Lemma strategy_20_to_50 (risk : R) (ca : bool) (nc : string) (dr : R) :
  20 <= risk < 50 ->
  get_mitigation_strategy risk ca nc dr = moderate_risk_plan ca nc dr.
Proof.
  intros [H1 H2]. unfold get_mitigation_strategy.
  destruct (Rlt_dec risk 20); [lra |].
  destruct (Rlt_dec risk 50); [reflexivity | contradiction].
Qed.

Lemma strategy_50_to_80 (risk : R) (ca : bool) (nc : string) (dr : R) :
  50 <= risk < 80 ->
  get_mitigation_strategy risk ca nc dr = high_risk_plan ca nc dr.
Proof.
  intros [H1 H2]. unfold get_mitigation_strategy.
  destruct (Rlt_dec risk 20); [lra |].
  destruct (Rlt_dec risk 50); [lra |].
  destruct (Rlt_dec risk 80); [reflexivity | contradiction].
Qed.

Lemma strategy_from_80 (risk : R) (ca : bool) (nc : string) (dr : R) :
  80 <= risk -> get_mitigation_strategy risk ca nc dr = extreme_risk_plan nc.
Proof.
  intros H. unfold get_mitigation_strategy.
  destruct (Rlt_dec risk 20); [lra |].
  destruct (Rlt_dec risk 50); [lra |].
  destruct (Rlt_dec risk 80); [lra | reflexivity].
Qed.

(** C6: the thresholds 20, 50 and 80 split the risk axis into the LOW,
    MODERATE, HIGH and EXTREME plans, each threshold opening the tier above
    it; 19.9, 20.0, 49.9, 50.0, 79.9 and 80.0 fall as listed. *)
Theorem get_mitigation_strategy_tiers
  (risk_factor : R) (city_affected : bool) (nearest_city : string)
  (damage_radius_km : R) :
  let plan r := get_mitigation_strategy r city_affected nearest_city damage_radius_km in
  (0 <= risk_factor < 20 ->
   plan risk_factor = low_risk_plan nearest_city /\
   plan_tier (plan risk_factor) = Some LOW) /\
  (20 <= risk_factor < 50 ->
   plan risk_factor =
     moderate_risk_plan city_affected nearest_city damage_radius_km /\
   plan_tier (plan risk_factor) = Some MODERATE) /\
  (50 <= risk_factor < 80 ->
   plan risk_factor =
     high_risk_plan city_affected nearest_city damage_radius_km /\
   plan_tier (plan risk_factor) = Some HIGH) /\
  (80 <= risk_factor <= 100 ->
   plan risk_factor = extreme_risk_plan nearest_city /\
   plan_tier (plan risk_factor) = Some EXTREME) /\
  plan_tier (plan 19.9) = Some LOW /\
  plan_tier (plan 20.0) = Some MODERATE /\
  plan_tier (plan 49.9) = Some MODERATE /\
  plan_tier (plan 50.0) = Some HIGH /\
  plan_tier (plan 79.9) = Some HIGH /\
  plan_tier (plan 80.0) = Some EXTREME.
Proof.
  intros plan. unfold plan.
  split; [intros H; rewrite strategy_below_20 by lra;
          split; [reflexivity | apply plan_tier_low] |].
  split; [intros H; rewrite strategy_20_to_50 by lra;
          split; [reflexivity | apply plan_tier_moderate] |].
  split; [intros H; rewrite strategy_50_to_80 by lra;
          split; [reflexivity | apply plan_tier_high] |].
  split; [intros H; rewrite strategy_from_80 by lra;
          split; [reflexivity | apply plan_tier_extreme] |].
  split; [rewrite strategy_below_20 by lra; apply plan_tier_low |].
  split; [rewrite strategy_20_to_50 by lra; apply plan_tier_moderate |].
  split; [rewrite strategy_20_to_50 by lra; apply plan_tier_moderate |].
  split; [rewrite strategy_50_to_80 by lra; apply plan_tier_high |].
  split; [rewrite strategy_50_to_80 by lra; apply plan_tier_high |].
  rewrite strategy_from_80 by lra; apply plan_tier_extreme.
Qed.

Lemma get_mitigation_strategy_tiers_witness :
  (get_mitigation_strategy 19.9 true "New York, USA" 12.5 =
     low_risk_plan "New York, USA" /\
   plan_tier (get_mitigation_strategy 19.9 true "New York, USA" 12.5) = Some LOW) /\
  (get_mitigation_strategy 20 true "New York, USA" 12.5 =
     moderate_risk_plan true "New York, USA" 12.5 /\
   plan_tier (get_mitigation_strategy 20 true "New York, USA" 12.5) = Some MODERATE) /\
  (get_mitigation_strategy 50 true "New York, USA" 12.5 =
     high_risk_plan true "New York, USA" 12.5 /\
   plan_tier (get_mitigation_strategy 50 true "New York, USA" 12.5) = Some HIGH) /\
  (get_mitigation_strategy 100 true "New York, USA" 12.5 =
     extreme_risk_plan "New York, USA" /\
   plan_tier (get_mitigation_strategy 100 true "New York, USA" 12.5) = Some EXTREME).
Proof.
  split; [| split; [| split]].
  - apply (proj1 (get_mitigation_strategy_tiers 19.9 true "New York, USA" 12.5)). lra.
  - apply (proj1 (proj2 (get_mitigation_strategy_tiers 20 true "New York, USA" 12.5))). lra.
  - apply (proj1 (proj2 (proj2
             (get_mitigation_strategy_tiers 50 true "New York, USA" 12.5)))). lra.
  - apply (proj1 (proj2 (proj2 (proj2
             (get_mitigation_strategy_tiers 100 true "New York, USA" 12.5))))). lra.
Defined.

(** ** The batch scorer *)

Lemma int_nonneg (x : R) : 0 <= x -> int x = Zfloor x /\ (0 <= Zfloor x)%Z.
Proof.
  intros H. unfold int. destruct (Rle_dec 0 x); [| contradiction].
  split; [reflexivity | apply Zfloor_lub; exact H].
Qed.

Lemma MITIGATION_STRATEGIES_length :
  List.length MITIGATION_STRATEGIES = 20%nat.
Proof. reflexivity. Qed.





(** ** The worked example *)

Lemma PI_bounds : 3.1415 < PI < 3.1416.
Proof.
  pose proof (PI_2_3_7_ineq 2) as H.
  unfold sum_f_R0, tg_alt, PI_2_3_7_tg, Ratan_seq in H.
  simpl in H. lra.
Qed.

Lemma sqrt2_bounds : 1.4142 < sqrt 2 < 1.4143.
Proof.
  pose proof (sqrt_sqrt 2 ltac:(lra)) as Hs.
  pose proof (sqrt_pos 2) as Hp.
  split; nra.
Qed.

Lemma sin_radians_45 : sin (radians 45) = 1 / sqrt 2.
Proof.
  unfold radians. replace (45 * PI / 180) with (PI / 4) by field.
  apply sin_PI4.
Qed.

Lemma find_nearest_city_new_york :
  find_nearest_city 40.7128 (-74.0060) = Some ("New York, USA", Fin 0).
Proof.
  exact (nearest_at_listed [] (tl MAJOR_CITIES) (hd ("", (0, 0, 0%Z)) MAJOR_CITIES)
           (Forall_nil _)).
Qed.

(** C1: the worked example.  A 100 m body of density 3000 kg/m3 at 20 km/s
    and 45 degrees, 50000 km away, aimed at the coordinates of New York,
    gives a mass of about 1.571e9 kg, an energy of about 2.22e17 J, that
    is about 53 megatons, the nearest city "New York, USA" at distance 0,
    the city affected, and the tier of energies in [1, 1000) megatons. *)
Theorem simulate_new_york_example :
  exists r,
    simulate_meteor_impact 100 20 50000 40.7128 (-74.0060) 45 3000 = Some r /\
    1.5705e9 < mass_kg r < 1.5715e9 /\
    2.215e17 < impact_energy_j r < 2.225e17 /\
    52.5 < impact_energy_mt r < 53.5 /\
    nearest_city r = "New York, USA" /\
    city_distance_km r = Fin 0 /\
    city_affected r = true /\
    1 <= impact_energy_mt r < 1000 /\
    impact_classification r = "City to country-scale devastation" /\
    casualty_estimate r = "10,000s-100,000s (regional catastrophe)" /\
    impact_risk r = Rmin 80 (50 + damage_radius_km r * 0.5).
Proof.
  assert (Hvalid : valid_params 100 20 50000 40.7128 (-74.0060) 45 3000)
    by (unfold valid_params; lra).
  destruct (simulate_valid _ _ _ _ _ _ _ Hvalid) as (r & Hrun & _ & Hdr).
  exists r. split; [exact Hrun |].
  destruct (simulate_inv _ _ _ _ _ _ _ _ Hrun)
    as (Hm & He & Hmt & _ & _ & _ & Himp & _ & Hclass & Hfind & Haff).
  pose proof PI_bounds as Hpi. pose proof sqrt2_bounds as Hs2.
  assert (Hmass : mass_kg r = 5e8 * PI).
  { rewrite Hm. unfold mass_expr. lra. }
  assert (Hinv : 0.70705 < 1 / sqrt 2 < 0.70712).
  { split.
    - apply Rmult_lt_reg_r with (sqrt 2); [lra |].
      unfold Rdiv. rewrite Rmult_assoc, Rinv_l by lra. lra.
    - apply Rmult_lt_reg_r with (sqrt 2); [lra |].
      unfold Rdiv. rewrite Rmult_assoc, Rinv_l by lra. lra. }
  assert (Henergy : 2.215e17 < impact_energy_j r < 2.225e17).
  { rewrite He, Hmass, sin_radians_45.
    set (q := 1 / sqrt 2) in *.
    replace (0.5 * (5e8 * PI) * (20 * 1000) ^ 2 * q) with (1e17 * (PI * q)) by lra.
    assert (3.1415 * 0.70705 < PI * q < 3.1416 * 0.70712) by nra.
    lra. }
  assert (Hmega : 52.5 < impact_energy_mt r < 53.5).
  { rewrite Hmt. lra. }
  rewrite find_nearest_city_new_york in Hfind.
  apply Some_inj in Hfind. injection Hfind as Hname Hdist.
  split; [lra |]. split; [exact Henergy |]. split; [exact Hmega |].
  split; [symmetry; exact Hname |]. split; [symmetry; exact Hdist |].
  split.
  { rewrite Haff, <- Hdist. cbn [float_le].
    destruct (Rle_dec 0 (damage_radius_km r)); [reflexivity | lra]. }
  split; [lra |].
  destruct (Rlt_dec (impact_energy_mt r) 0.01); [lra |].
  destruct (Rlt_dec (impact_energy_mt r) 1); [lra |].
  destruct (Rlt_dec (impact_energy_mt r) 1000); [| lra].
  injection Hclass as Hc1 Hc2.
  split; [exact Hc1 |]. split; [exact Hc2 | exact Himp].
Qed.

(** * Further properties of the two modules *)

(** ** Rounding is monotone *)





(** ** The batch scorer: [calculate_risk_factor] and [choose_mitigation] *)

Lemma int_negative (x : R) : x < 0 -> int x = (- Zfloor (- x))%Z.
Proof.
  intros H. unfold int. destruct (Rle_dec 0 x); [lra | reflexivity].
Qed.

(** [int x] is below a negative integer exactly when [x] is. *)
Lemma int_le_negative (x : R) (z : Z) :
  (z < 0)%Z -> ((int x <= z)%Z <-> x <= IZR z).
Proof.
  intros Hz. assert (Hzr : IZR z < 0) by (apply IZR_lt in Hz; exact Hz).
  destruct (Rle_lt_dec 0 x) as [Hx | Hx].
  - destruct (int_nonneg x Hx) as [E Hf]. rewrite E. split; [lia | lra].
  - rewrite (int_negative x Hx).
    pose proof (Zfloor_bound (- x)) as Hb.
    split.
    + intros H. assert (H' : (- z <= Zfloor (- x))%Z) by lia.
      apply IZR_le in H'. rewrite opp_IZR in H'. lra.
    + intros H. assert (H' : (- z <= Zfloor (- x))%Z).
      { apply Zfloor_lub. rewrite opp_IZR. lra. }
      lia.
Qed.

Lemma list_getitem_none_iff {A : Type} (l : list A) (i : Z) :
  list_getitem l i = None <->
  (i < - Z.of_nat (List.length l) \/ Z.of_nat (List.length l) <= i)%Z.
Proof.
  unfold list_getitem.
  destruct (0 <=? i)%Z eqn:E0.
  - apply Z.leb_le in E0. rewrite nth_error_None. lia.
  - apply Z.leb_gt in E0.
    destruct (- Z.of_nat (List.length l) <=? i)%Z eqn:E1.
    + apply Z.leb_le in E1. rewrite nth_error_None. lia.
    + apply Z.leb_gt in E1. split; [intros _; lia | reflexivity].
Qed.


(** X2: [choose_mitigation] raises [IndexError] exactly for a risk of -105
    or less; between -105 and -5 the negative index wraps around to the
    end of the list. *)
Theorem choose_mitigation_fails_iff (risk : R) :
  (choose_mitigation risk = None <-> risk <= -105) /\
  (-105 < risk <= -5 ->
   choose_mitigation risk =
     nth_error MITIGATION_STRATEGIES (Z.to_nat (20 + int (risk / 5))) /\
   (-20 <= int (risk / 5) <= -1)%Z).
Proof.
  assert (Hidx : (mitigation_index risk < -20)%Z <-> risk <= -105).
  { unfold mitigation_index. rewrite MITIGATION_STRATEGIES_length.
    rewrite Z.min_lt_iff.
    assert (H21 : (int (risk / 5) <= -21)%Z <-> risk / 5 <= IZR (-21))
      by (apply int_le_negative; lia).
    split.
    - intros [H | H]; [lia |]. assert (H' : risk / 5 <= -21) by (apply H21; lia). lra.
    - intros H. right. assert (H' : (int (risk / 5) <= -21)%Z) by (apply H21; lra).
      lia. }
  split.
  - unfold choose_mitigation. rewrite list_getitem_none_iff.
    rewrite MITIGATION_STRATEGIES_length.
    assert (Hup : (mitigation_index risk <= 19)%Z).
    { unfold mitigation_index. rewrite MITIGATION_STRATEGIES_length. lia. }
    rewrite <- Hidx. change (Z.of_nat 20) with 20%Z. lia.
  - intros [Hlo Hhi].
    assert (H1 : (int (risk / 5) <= -1)%Z) by (apply int_le_negative; [lia | lra]).
    assert (H2 : ~ (int (risk / 5) <= -21)%Z).
    { intros H. apply int_le_negative in H; [lra | lia]. }
    split; [| lia].
    unfold choose_mitigation, mitigation_index, list_getitem.
    rewrite MITIGATION_STRATEGIES_length.
    replace (Z.min (Z.of_nat 20 - 1) (int (risk / 5))) with (int (risk / 5)) by lia.
    destruct (0 <=? int (risk / 5))%Z eqn:E0; [apply Z.leb_le in E0; lia |].
    destruct (- Z.of_nat 20 <=? int (risk / 5))%Z eqn:E1;
      [| apply Z.leb_gt in E1; lia].
    f_equal. lia.
Qed.

Lemma choose_mitigation_fails_iff_witness :
  choose_mitigation (-5) =
    nth_error MITIGATION_STRATEGIES (Z.to_nat (20 + int (-5 / 5))) /\
  (-20 <= int (-5 / 5) <= -1)%Z.
Proof.
  apply (proj2 (choose_mitigation_fails_iff (-5))). lra.
Defined.

(** X3: a risk in [5k, 5k + 5) with k <= 18 selects the strategy of index
    k, and every risk from 95 upwards, also above 100, selects the last
    one. *)
Theorem choose_mitigation_buckets (risk : R) (k : nat) :
  ((k <= 18)%nat -> 5 * INR k <= risk < 5 * INR k + 5 ->
   choose_mitigation risk = nth_error MITIGATION_STRATEGIES k) /\
  (95 <= risk ->
   choose_mitigation risk = nth_error MITIGATION_STRATEGIES 19).
Proof.
  split.
  - intros Hk [Hlo Hhi].
    assert (Hk0 : 0 <= INR k) by apply pos_INR.
    destruct (int_nonneg (risk / 5)) as [Hi _]; [lra |].
    assert (Hf : Zfloor (risk / 5) = Z.of_nat k).
    { apply Zfloor_eq. rewrite <- INR_IZR_INZ. lra. }
    unfold choose_mitigation, mitigation_index, list_getitem.
    rewrite MITIGATION_STRATEGIES_length, Hi, Hf.
    replace (Z.min (Z.of_nat 20 - 1) (Z.of_nat k)) with (Z.of_nat k) by lia.
    destruct (0 <=? Z.of_nat k)%Z eqn:E0; [| apply Z.leb_gt in E0; lia].
    rewrite Nat2Z.id. reflexivity.
  - intros H.
    destruct (int_nonneg (risk / 5)) as [Hi _]; [lra |].
    assert (Hf : (19 <= Zfloor (risk / 5))%Z) by (apply Zfloor_lub; lra).
    unfold choose_mitigation, mitigation_index, list_getitem.
    rewrite MITIGATION_STRATEGIES_length, Hi.
    replace (Z.min (Z.of_nat 20 - 1) (Zfloor (risk / 5))) with 19%Z by lia.
    reflexivity.
Qed.

Lemma choose_mitigation_buckets_witness :
  choose_mitigation 12.5 = nth_error MITIGATION_STRATEGIES 2 /\
  choose_mitigation 250 = nth_error MITIGATION_STRATEGIES 19.
Proof.
  split.
  - apply (proj1 (choose_mitigation_buckets 12.5 2)); [lia | simpl; lra].
  - apply (proj2 (choose_mitigation_buckets 250 0)). lra.
Defined.






(** ** The impact simulator: distance, tiers and plans *)






Lemma plan_tier_of_risk (risk : R) (ca : bool) (nc : string) (dr : R) :
  plan_tier (get_mitigation_strategy risk ca nc dr) =
  Some (if Rlt_dec risk 20 then LOW
        else if Rlt_dec risk 50 then MODERATE
        else if Rlt_dec risk 80 then HIGH
        else EXTREME).
Proof.
  unfold get_mitigation_strategy.
  destruct (Rlt_dec risk 20); [apply plan_tier_low |].
  destruct (Rlt_dec risk 50); [apply plan_tier_moderate |].
  destruct (Rlt_dec risk 80); [apply plan_tier_high | apply plan_tier_extreme].
Qed.

(** X8: every risk value gets a plan, also outside [0, 100], and the tier
    announced by the text tells the interval of the risk: LOW exactly below
    20 (negative values included), MODERATE on [20, 50), HIGH on [50, 80)
    and EXTREME exactly from 80 on (values above 100 included). *)
Theorem get_mitigation_strategy_tier_iff
  (risk_factor : R) (city_affected : bool) (nearest_city : string)
  (damage_radius_km : R) :
  let tier := plan_tier (get_mitigation_strategy risk_factor city_affected
                           nearest_city damage_radius_km) in
  (tier = Some LOW <-> risk_factor < 20) /\
  (tier = Some MODERATE <-> 20 <= risk_factor < 50) /\
  (tier = Some HIGH <-> 50 <= risk_factor < 80) /\
  (tier = Some EXTREME <-> 80 <= risk_factor).
Proof.
  intros tier. unfold tier. rewrite plan_tier_of_risk.
  destruct (Rlt_dec risk_factor 20);
    [| destruct (Rlt_dec risk_factor 50);
       [| destruct (Rlt_dec risk_factor 80)]];
    repeat split; intros; try discriminate; try reflexivity; lra.
Qed.




(** ** Geometry of the nearest-city lookup *)











(** ** Where the simulator raises, and how it scales *)











(** ** [interactive_predictor] *)

Section InteractivePredictor.

Variable float_of_string : string -> option R.
Variable timestamp : string.



Lemma read_floats_cases (n : nat) (stdin : list string) :
  (exists values rest,
     read_floats float_of_string n stdin = ReadOk values rest /\
     List.length values = n) \/
  (exists rest, read_floats float_of_string n stdin = ReadValueError rest) \/
  read_floats float_of_string n stdin = ReadEOF.
Proof.
  revert stdin. induction n as [| n IH]; intros stdin; cbn [read_floats].
  - left. exists [], stdin. split; reflexivity.
  - destruct stdin as [| line rest]; [right; right; reflexivity |].
    destruct (float_of_string line) as [x |]; [| right; left; eauto].
    destruct (IH rest) as [(values & rest' & E & Hlen) | [(rest' & E) | E]];
      rewrite E.
    + left. exists (x :: values), rest'. split; [reflexivity | cbn; lia].
    + right. left. eauto.
    + right. right. reflexivity.
Qed.

(** How the log changes in one call, whatever is typed. *)
Lemma interactive_predictor_log (stdin : list string) (log : csv_log) :
  let '(outcome, _, log') :=
    interactive_predictor float_of_string timestamp stdin log in
  match outcome with
  | Predicted r _ =>
      exists row,
        List.length row = List.length LOG_HEADER /\
        log' = append_prediction log row
  | _ => log' = log
  end.
Proof.
  unfold interactive_predictor.
  destruct (read_floats float_of_string 5 stdin) as [values rest | rest |];
    [| reflexivity | reflexivity].
  destruct values as [| d [| v [| dist [| lat [| lon [| extra values]]]]]];
    try reflexivity.
  destruct (negb _); [reflexivity |].
  destruct (negb _); [reflexivity |].
  destruct (_ || _ || _)%bool; [reflexivity |].
  destruct (simulate_meteor_impact d v dist lat lon 45 3000) as [r |];
    [| reflexivity].
  eexists. split; [| reflexivity]. reflexivity.
Qed.

(** X17: only a saved prediction touches the log.  A rejected or failed
    call leaves it as it was; a saved one appends exactly one row of 16
    cells, and writes the header first exactly when the file did not exist,
    so a file that exists but is empty gets a row without a header. *)
Theorem interactive_predictor_log_effect (stdin : list string) (log : csv_log) :
  let '(outcome, _, log') :=
    interactive_predictor float_of_string timestamp stdin log in
  match outcome with
  | Predicted r _ =>
      exists row,
        List.length row = 16%nat /\
        match log with
        | None => log' = Some [LOG_HEADER; row]
        | Some rows => log' = Some (rows ++ [row])%list
        end
  | _ => log' = log
  end.
Proof.
  pose proof (interactive_predictor_log stdin log) as H.
  destruct (interactive_predictor float_of_string timestamp stdin log)
    as [[outcome rest] log'].
  destruct outcome as [msg | r m |]; try exact H.
  destruct H as (row & Hlen & Hlog). exists row. split; [exact Hlen |].
  destruct log; exact Hlog.
Qed.


End InteractivePredictor.



(** ** The feeds: [fetch_fireball] and [fetch_cad] *)

Section FeedProperties.

Variable float_of_string : string -> option R.

Lemma filter_events_In (step : json -> option sky_object) (events : list json)
  (record : sky_object) :
  In record (filter_events step events) <->
  exists event, In event events /\ step event = Some record.
Proof.
  induction events as [| e rest IH]; cbn [filter_events].
  - split; [intros [] | intros (ev & [] & _)].
  - destruct (step e) as [r |] eqn:E.
    + cbn [In]. rewrite IH. split.
      * intros [<- | (ev & Hin & Hs)]; [exists e | exists ev]; cbn; auto.
      * intros (ev & [<- | Hin] & Hs); [left; congruence | right; eauto].
    + rewrite IH. split.
      * intros (ev & Hin & Hs). exists ev. cbn. auto.
      * intros (ev & [<- | Hin] & Hs); [congruence | eauto].
Qed.

Lemma filter_events_app (step : json -> option sky_object) (a b : list json) :
  filter_events step (a ++ b)%list =
  (filter_events step a ++ filter_events step b)%list.
Proof.
  induction a as [| e a IH]; cbn [filter_events app]; [reflexivity |].
  destruct (step e); cbn [app]; rewrite IH; reflexivity.
Qed.

Lemma filter_events_length (step : json -> option sky_object) (events : list json) :
  (List.length (filter_events step events) <= List.length events)%nat.
Proof.
  induction events as [| e rest IH]; cbn [filter_events List.length]; [lia |].
  destruct (step e); cbn [List.length]; lia.
Qed.

Lemma fireball_event_inv (event : json) (record : sky_object) :
  fireball_event float_of_string event = Some record ->
  obj_source record = "Fireball" /\
  obj_distance_km record <= MAX_DISTANCE_KM.
Proof.
  unfold fireball_event. intros H.
  apply bind_some in H. destruct H as (e7 & _ & H).
  apply bind_some in H. destruct H as (diam & _ & H).
  apply bind_some in H. destruct H as (e4 & _ & H).
  apply bind_some in H. destruct H as (vel & _ & H).
  apply bind_some in H. destruct H as (e1 & _ & H).
  apply bind_some in H. destruct H as (dist & _ & H).
  destruct (Rle_dec dist MAX_DISTANCE_KM) as [Hle |]; [| discriminate H].
  apply bind_some in H. destruct H as (e0 & _ & H).
  apply Some_inj in H. subst record. split; [reflexivity | exact Hle].
Qed.

Lemma fetch_fireball_In (response : option json) (record : sky_object) :
  In record (fetch_fireball float_of_string response) ->
  exists event, fireball_event float_of_string event = Some record.
Proof.
  unfold fetch_fireball.
  destruct response as [[| | | | | | items] |]; try (intros []).
  destruct (dict_get items "data") as [data |]; [| intros []].
  destruct (iterate data) as [events |]; [| intros []].
  intros H. apply filter_events_In in H. destruct H as (ev & _ & Hs). eauto.
Qed.

(** X19: every record [fetch_fireball] returns is tagged "Fireball" and
    lies within the distance limit of 1e7 km, whatever the feed sent; a
    failed request gives the empty list. *)
Theorem fetch_fireball_records (response : option json) (record : sky_object) :
  fetch_fireball float_of_string None = [] /\
  (In record (fetch_fireball float_of_string response) ->
   obj_source record = "Fireball" /\
   obj_distance_km record <= MAX_DISTANCE_KM).
Proof.
  split; [reflexivity |].
  intros H. apply fetch_fireball_In in H. destruct H as (ev & Hs).
  eapply fireball_event_inv. exact Hs.
Qed.

Lemma risk_at_rest_on_horizon (diameter : R) :
  calculate_risk_factor diameter 0 MAX_DISTANCE_KM = 0.
Proof.
  unfold calculate_risk_factor.
  replace ((0 * 1000) ^ 2) with 0 by ring.
  match goal with
  | |- round (Rmin 100 (Rmax 0 ?x)) 1 = 0 => replace x with 0 by lra
  end.
  rewrite Rmax_left by lra. rewrite Rmin_right by lra. apply round_zero.
Qed.

Lemma choose_mitigation_zero :
  choose_mitigation 0 = nth_error MITIGATION_STRATEGIES 0.
Proof.
  unfold choose_mitigation, mitigation_index, list_getitem.
  destruct (int_nonneg (0 / 5)) as [Hi _]; [lra |].
  rewrite Hi. replace (0 / 5) with (IZR 0) by lra. rewrite ZfloorZ. reflexivity.
Qed.

Lemma fireball_event_blank (event : list json) (e0 e1 e4 e7 : json) :
  nth_error event 0 = Some e0 -> nth_error event 1 = Some e1 ->
  nth_error event 4 = Some e4 -> nth_error event 7 = Some e7 ->
  is_blank e1 = true -> is_blank e4 = true -> is_blank e7 = true ->
  fireball_event float_of_string (JList event) =
  Some {| obj_source := "Fireball"; obj_name := e0; obj_diameter_m := 1.0;
          obj_velocity_km_s := 0.0; obj_distance_km := MAX_DISTANCE_KM |}.
Proof.
  intros H0 H1 H4 H7 B1 B4 B7.
  assert (G : forall (i : nat) v, nth_error event i = Some v ->
              getitem (JList event) (JInt (Z.of_nat i)) = Some v).
  { intros i v Hn. cbn [getitem]. unfold list_getitem.
    destruct (0 <=? Z.of_nat i)%Z eqn:E; [| apply Z.leb_gt in E; lia].
    rewrite Nat2Z.id. exact Hn. }
  pose proof (G 7%nat e7 H7) as G7. pose proof (G 4%nat e4 H4) as G4.
  pose proof (G 1%nat e1 H1) as G1. pose proof (G 0%nat e0 H0) as G0.
  cbn [Z.of_nat Pos.of_succ_nat Pos.succ] in G7, G4, G1, G0.
  unfold fireball_event. rewrite G7, G4, G1, G0.
  cbn [bind]. unfold float_or. rewrite B7, B4, B1. cbn [bind].
  destruct (Rle_dec MAX_DISTANCE_KM MAX_DISTANCE_KM) as [_ | N]; [| exfalso; lra].
  reflexivity.
Qed.

(** X20: an event of at least eight entries whose entries 7, 4 and 1 are
    empty strings or [None] is kept with the defaults: diameter 1.0 m,
    velocity 0 km/s and distance 1e7 km; it scores the risk 0 and gets the
    first strategy of the list. *)
Theorem fireball_event_defaults (event : list json) (e0 e1 e4 e7 : json) :
  nth_error event 0 = Some e0 -> nth_error event 1 = Some e1 ->
  nth_error event 4 = Some e4 -> nth_error event 7 = Some e7 ->
  is_blank e1 = true -> is_blank e4 = true -> is_blank e7 = true ->
  exists record,
    fireball_event float_of_string (JList event) = Some record /\
    obj_name record = e0 /\
    obj_diameter_m record = 1 /\
    obj_velocity_km_s record = 0 /\
    obj_distance_km record = 1e7 /\
    calculate_risk_factor (obj_diameter_m record) (obj_velocity_km_s record)
      (obj_distance_km record) = 0 /\
    choose_mitigation 0 = nth_error MITIGATION_STRATEGIES 0.
Proof.
  intros H0 H1 H4 H7 B1 B4 B7.
  eexists. split; [apply (fireball_event_blank event e0 e1 e4 e7); assumption |].
  cbn [obj_name obj_diameter_m obj_velocity_km_s obj_distance_km].
  split; [reflexivity |]. split; [lra |]. split; [lra |].
  split; [reflexivity |]. split.
  - replace 0.0 with 0 by lra. apply risk_at_rest_on_horizon.
  - apply choose_mitigation_zero.
Qed.

(** X21: events are handled one by one and in order: the records of a
    concatenated feed are the records of its parts, an event with fewer
    than eight entries contributes nothing, and there are never more
    records than events. *)
Theorem fetch_fireball_event_by_event (a b short : list json) :
  let feed events := Some (JDict [("data", JList events)]) in
  fetch_fireball float_of_string (feed (a ++ b)%list) =
    (fetch_fireball float_of_string (feed a) ++
     fetch_fireball float_of_string (feed b))%list /\
  ((List.length short < 8)%nat ->
   fetch_fireball float_of_string (feed (a ++ JList short :: b)%list) =
   fetch_fireball float_of_string (feed (a ++ b)%list)) /\
  (List.length (fetch_fireball float_of_string (feed a)) <= List.length a)%nat.
Proof.
  intros feed. unfold feed, fetch_fireball. cbn [dict_get String.eqb Ascii.eqb Bool.eqb iterate].
  split; [apply filter_events_app |]. split; [| apply filter_events_length].
  intros Hshort. rewrite !filter_events_app. f_equal.
  cbn [filter_events].
  assert (E : fireball_event float_of_string (JList short) = None).
  { unfold fireball_event. cbn [getitem]. unfold list_getitem. cbn [Z.leb Z.compare].
    assert (Hn : nth_error short (Z.to_nat 7) = None)
      by (apply nth_error_None; change (Z.to_nat 7) with 7%nat; lia).
    rewrite Hn. reflexivity. }
  rewrite E. reflexivity.
Qed.

End FeedProperties.

Lemma fetch_fireball_records_witness :
  exists record,
    In record
      (fetch_fireball (fun _ => None)
         (Some (JDict [("data",
            JList [JList [JStr "2024-05-18"; JNull; JStr "x"; JStr "y";
                          JStr ""; JStr "z"; JStr "w"; JNull]])]))) /\
    obj_source record = "Fireball" /\
    obj_distance_km record <= MAX_DISTANCE_KM.
Proof.
  pose proof (fireball_event_blank (fun _ => None)
                [JStr "2024-05-18"; JNull; JStr "x"; JStr "y";
                 JStr ""; JStr "z"; JStr "w"; JNull]
                (JStr "2024-05-18") JNull (JStr "") JNull
                eq_refl eq_refl eq_refl eq_refl eq_refl eq_refl eq_refl) as E.
  eexists. 
  assert (Hin : In {| obj_source := "Fireball"; obj_name := JStr "2024-05-18";
                      obj_diameter_m := 1.0; obj_velocity_km_s := 0.0;
                      obj_distance_km := MAX_DISTANCE_KM |}
            (fetch_fireball (fun _ => None)
               (Some (JDict [("data",
                  JList [JList [JStr "2024-05-18"; JNull; JStr "x"; JStr "y";
                                JStr ""; JStr "z"; JStr "w"; JNull]])])))).
  { unfold fetch_fireball. cbn [dict_get String.eqb Ascii.eqb Bool.eqb iterate filter_events].
    rewrite E. left. reflexivity. }
  split; [exact Hin |].
  exact (proj2 (fetch_fireball_records (fun _ => None) _ _) Hin).
Defined.

Lemma fireball_event_defaults_witness :
  exists record,
    fireball_event (fun _ => None)
      (JList [JStr "2024-05-18"; JNull; JStr "x"; JStr "y";
              JStr ""; JStr "z"; JStr "w"; JNull]) = Some record /\
    obj_name record = JStr "2024-05-18" /\
    obj_diameter_m record = 1 /\
    obj_velocity_km_s record = 0 /\
    obj_distance_km record = 1e7 /\
    calculate_risk_factor (obj_diameter_m record) (obj_velocity_km_s record)
      (obj_distance_km record) = 0 /\
    choose_mitigation 0 = nth_error MITIGATION_STRATEGIES 0.
Proof.
  apply (fireball_event_defaults (fun _ => None)
           [JStr "2024-05-18"; JNull; JStr "x"; JStr "y";
            JStr ""; JStr "z"; JStr "w"; JNull]
           (JStr "2024-05-18") JNull (JStr "") JNull); reflexivity.
Defined.

Lemma fetch_fireball_event_by_event_witness :
  fetch_fireball (fun _ => None)
    (Some (JDict [("data", JList ([] ++ JList [JNull; JNull] :: [])%list)])) =
  fetch_fireball (fun _ => None) (Some (JDict [("data", JList ([] ++ [])%list)])).
Proof.
  apply (proj1 (proj2 (fetch_fireball_event_by_event (fun _ => None)
                         [] [] [JNull; JNull]))).
  cbn. lia.
Defined.

Section CadProperties.

Variable float_of_string : string -> option R.





Lemma list_index_none (items : list json) (name : string) :
  ~ In (JStr name) items -> list_index items name = None.
Proof.
  induction items as [| item rest IH]; intros Hn; cbn [list_index]; [reflexivity |].
  assert (Hrest : list_index rest name = None).
  { apply IH. intros Hin. apply Hn. right. exact Hin. }
  destruct item as [| b | n | x | s | l | d]; rewrite ?Hrest; try reflexivity.
  destruct (String.eqb s name) eqn:E; [| reflexivity].
  apply String.eqb_eq in E. subst s. exfalso. apply Hn. left. reflexivity.
Qed.

(** X23: [fetch_cad] returns the empty list when the body has no "fields"
    entry, and when "fields" is a list that lacks one of the column names
    "des", "dist" and "v_rel"; the optional column "h" may be missing. *)
Theorem fetch_cad_requires_columns (items : list (string * json))
  (names : list json) :
  (dict_get items "fields" = None ->
   fetch_cad float_of_string (Some (JDict items)) = []) /\
  (dict_get items "fields" = Some (JList names) ->
   ~ In (JStr "des") names \/ ~ In (JStr "dist") names \/
   ~ In (JStr "v_rel") names ->
   fetch_cad float_of_string (Some (JDict items)) = []).
Proof.
  split.
  - intros Hf. unfold fetch_cad. rewrite Hf. reflexivity.
  - intros Hf Hmiss. unfold fetch_cad. rewrite Hf.
    destruct (negb (truthy (JList names))); [reflexivity |].
    cbn [fields_index].
    destruct Hmiss as [H | [H | H]]; rewrite (list_index_none _ _ H);
      repeat match goal with
        | |- context [match ?x with Some _ => _ | None => _ end] =>
            destruct x
        end; reflexivity.
Qed.


End CadProperties.



Lemma fetch_cad_requires_columns_witness :
  fetch_cad (fun _ => None)
    (Some (JDict [("fields", JList [JStr "des"; JStr "dist"]);
                  ("data", JList [])])) = [].
Proof.
  apply (proj2 (fetch_cad_requires_columns (fun _ => None)
                  [("fields", JList [JStr "des"; JStr "dist"]);
                   ("data", JList [])]
                  [JStr "des"; JStr "dist"])).
  - reflexivity.
  - right. right. intros [H | [H | []]]; discriminate H.
Defined.


(** ** [fetch_neo] and [main] *)

Lemma neo_windows_from_enough (fuel : nat) :
  forall (fuel' : nat) (current end_date : Z),
  (end_date - current < Z.of_nat fuel * timedelta_days 1)%Z ->
  (end_date - current < Z.of_nat fuel' * timedelta_days 1)%Z ->
  neo_windows_from fuel current end_date =
  neo_windows_from fuel' current end_date.
Proof.
  unfold timedelta_days.
  induction fuel as [| fuel IH]; intros fuel' current end_date H1 H2.
  - destruct fuel' as [| fuel']; [reflexivity |]. cbn [neo_windows_from].
    destruct (current <? end_date)%Z eqn:E; [apply Z.ltb_lt in E; lia | reflexivity].
  - cbn [neo_windows_from].
    destruct (current <? end_date)%Z eqn:E.
    + apply Z.ltb_lt in E.
      destruct fuel' as [| fuel']; [lia |]. cbn [neo_windows_from].
      apply Z.ltb_lt in E. rewrite E. apply Z.ltb_lt in E.
      cbv zeta. f_equal. apply IH; unfold timedelta_days; lia.
    + destruct fuel' as [| fuel']; [reflexivity |]. cbn [neo_windows_from].
      rewrite E. reflexivity.
Qed.

Lemma neo_windows_fuel (start_date end_date : Z) :
  (end_date - start_date <
   Z.of_nat (Z.to_nat ((end_date - start_date) / timedelta_days 1) + 1) *
   timedelta_days 1)%Z.
Proof.
  unfold timedelta_days. change (1 * 86400000000)%Z with 86400000000%Z.
  pose proof (Z.div_mod (end_date - start_date) 86400000000 ltac:(lia)) as Hdm.
  pose proof (Z.mod_pos_bound (end_date - start_date) 86400000000 ltac:(lia)) as Hm.
  set (q := ((end_date - start_date) / 86400000000)%Z) in *.
  set (m := ((end_date - start_date) mod 86400000000)%Z) in *.
  lia.
Qed.

(** The loop equation: the bound on the passes never cuts the loop short. *)
Lemma neo_windows_loop (start_date end_date : Z) :
  neo_windows start_date end_date =
  if (start_date <? end_date)%Z then
    let chunk_end := Z.min (start_date + timedelta_days 7) end_date in
    (start_date, chunk_end) ::
    neo_windows (chunk_end + timedelta_days 1) end_date
  else [].
Proof.
  unfold neo_windows at 1. rewrite Nat.add_1_r. cbn [neo_windows_from].
  destruct (start_date <? end_date)%Z eqn:E; [| reflexivity].
  apply Z.ltb_lt in E. cbv zeta. f_equal.
  unfold neo_windows. apply neo_windows_from_enough.
  - pose proof (neo_windows_fuel start_date end_date) as H.
    rewrite Nat.add_1_r in H. unfold timedelta_days in *. lia.
  - apply neo_windows_fuel.
Qed.

Lemma neo_windows_from_In (fuel : nat) :
  forall (current end_date c e : Z),
  In (c, e) (neo_windows_from fuel current end_date) ->
  (current <= c < e)%Z /\ (e <= end_date)%Z /\ (e - c <= timedelta_days 7)%Z.
Proof.
  unfold timedelta_days.
  induction fuel as [| fuel IH]; intros current end_date c e H;
    cbn [neo_windows_from] in H; [destruct H |].
  destruct (current <? end_date)%Z eqn:E; [| destruct H].
  apply Z.ltb_lt in E. cbv zeta in H. destruct H as [H | H].
  - injection H as <- <-. unfold timedelta_days. lia.
  - apply IH in H. unfold timedelta_days in H. lia.
Qed.

(** X25: the bound on the passes never cuts the loop of [fetch_neo] short:
    the windows obey the equation of the [while] loop.  Every window
    requested lies inside the range given, is not empty and spans at most
    seven days, and with a start that is not before the end nothing is
    requested. *)
Theorem neo_windows_in_range (start_date end_date c e : Z) :
  neo_windows start_date end_date =
    (if (start_date <? end_date)%Z then
       let chunk_end := Z.min (start_date + timedelta_days 7) end_date in
       (start_date, chunk_end) ::
       neo_windows (chunk_end + timedelta_days 1) end_date
     else []) /\
  ((end_date <= start_date)%Z -> neo_windows start_date end_date = []) /\
  (In (c, e) (neo_windows start_date end_date) ->
   (start_date <= c < e)%Z /\ (e <= end_date)%Z /\
   (e - c <= timedelta_days 7)%Z).
Proof.
  split; [apply neo_windows_loop |]. split.
  - intros H. rewrite neo_windows_loop.
    destruct (start_date <? end_date)%Z eqn:E; [apply Z.ltb_lt in E; lia | reflexivity].
  - apply neo_windows_from_In.
Qed.

Lemma neo_windows_in_range_witness :
  (0 <= 0 < timedelta_days 7)%Z /\ (timedelta_days 7 <= timedelta_days 150)%Z /\
  (timedelta_days 7 - 0 <= timedelta_days 7)%Z.
Proof.
  apply (proj2 (proj2 (neo_windows_in_range 0 (timedelta_days 150) 0
                         (timedelta_days 7)))).
  vm_compute. left. reflexivity.
Defined.

Lemma neo_windows_from_length (fuel : nat) :
  forall (current end_date : Z),
  (end_date - current < Z.of_nat fuel * timedelta_days 1)%Z ->
  List.length (neo_windows_from fuel current end_date) =
  Z.to_nat ((end_date - current + timedelta_days 8 - 1) / timedelta_days 8).
Proof.
  unfold timedelta_days.
  change (8 * 86400000000)%Z with 691200000000%Z.
  change (1 * 86400000000)%Z with 86400000000%Z.
  change (7 * 86400000000)%Z with 604800000000%Z.
  induction fuel as [| fuel IH]; intros current end_date Hfuel.
  - cbn [neo_windows_from List.length].
    pose proof (Z.div_mod (end_date - current + 691200000000 - 1) 691200000000
                  ltac:(lia)) as Hdm.
    pose proof (Z.mod_pos_bound (end_date - current + 691200000000 - 1)
                  691200000000 ltac:(lia)) as Hm.
    lia.
  - cbn [neo_windows_from].
    pose proof (Z.div_mod (end_date - current + 691200000000 - 1) 691200000000
                  ltac:(lia)) as Hdm.
    pose proof (Z.mod_pos_bound (end_date - current + 691200000000 - 1)
                  691200000000 ltac:(lia)) as Hm.
    destruct (current <? end_date)%Z eqn:E.
    + apply Z.ltb_lt in E. cbv zeta. cbn [List.length].
      unfold timedelta_days.
      change (1 * 86400000000)%Z with 86400000000%Z.
      change (7 * 86400000000)%Z with 604800000000%Z.
      rewrite IH by lia.
      set (next := (Z.min (current + 604800000000) end_date + 86400000000)%Z).
      pose proof (Z.div_mod (end_date - next + 691200000000 - 1) 691200000000
                    ltac:(lia)) as Hdm2.
      pose proof (Z.mod_pos_bound (end_date - next + 691200000000 - 1)
                    691200000000 ltac:(lia)) as Hm2.
      unfold next in *. lia.
    + apply Z.ltb_ge in E. cbn [List.length]. lia.
Qed.

(** X26: [fetch_neo] sends one request per started block of eight days of
    the range: ceil((end - start) / 8 days) requests, which is 19 for the
    150 days [main] asks for. *)
Theorem neo_windows_count (start_date end_date now : Z) :
  List.length (neo_windows start_date end_date) =
    Z.to_nat ((end_date - start_date + timedelta_days 8 - 1) / timedelta_days 8) /\
  List.length (neo_windows (now - timedelta_days 150) now) = 19%nat.
Proof.
  assert (H : forall s t, List.length (neo_windows s t) =
            Z.to_nat ((t - s + timedelta_days 8 - 1) / timedelta_days 8)).
  { intros s t. unfold neo_windows. apply neo_windows_from_length.
    apply neo_windows_fuel. }
  split; [apply H |].
  rewrite H. replace (now - (now - timedelta_days 150))%Z with (timedelta_days 150) by lia.
  reflexivity.
Qed.

Section NeoProperties.

Variable float_of_string : string -> option R.
Variables neo_api fireball_api cad_api : Z -> Z -> option json.

Lemma neo_object_inv (obj : json) (record : sky_object) :
  neo_object float_of_string obj = Some (Some record) ->
  obj_source record = "NEO" /\ obj_distance_km record <= MAX_DISTANCE_KM.
Proof.
  unfold neo_object. intros H.
  repeat (apply bind_some in H; destruct H as (? & _ & H)).
  destruct (Rle_dec _ MAX_DISTANCE_KM) as [Hle |]; [| discriminate H].
  repeat (apply bind_some in H; destruct H as (? & _ & H)).
  apply Some_inj in H. apply Some_inj in H. subst record.
  split; [reflexivity | exact Hle].
Qed.

Lemma neo_objects_inv (objs : list json) (record : sky_object) :
  In record (fst (neo_objects float_of_string objs)) ->
  obj_source record = "NEO" /\ obj_distance_km record <= MAX_DISTANCE_KM.
Proof.
  induction objs as [| obj rest IH]; cbn [neo_objects]; [intros [] |].
  destruct (neo_object float_of_string obj) as [[r |] |] eqn:E.
  - destruct (neo_objects float_of_string rest) as [records finished].
    cbn [fst In] in *. intros [<- | H]; [eapply neo_object_inv; exact E | auto].
  - exact IH.
  - intros [].
Qed.

Lemma neo_days_inv (table : json) (days : list json) (record : sky_object) :
  In record (fst (neo_days float_of_string table days)) ->
  obj_source record = "NEO" /\ obj_distance_km record <= MAX_DISTANCE_KM.
Proof.
  induction days as [| day rest IH]; cbn [neo_days]; [intros [] |].
  destruct (objs <- getitem table day ;; iterate objs) as [objs |]; [| intros []].
  pose proof (neo_objects_inv objs record) as Hobjs.
  destruct (neo_objects float_of_string objs) as [records finished].
  destruct finished; [| exact Hobjs].
  destruct (neo_days float_of_string table rest) as [more finished'].
  cbn [fst] in *. intros H. apply in_app_or in H. destruct H; auto.
Qed.

Lemma neo_chunk_inv (response : option json) (record : sky_object) :
  In record (neo_chunk float_of_string response) ->
  obj_source record = "NEO" /\ obj_distance_km record <= MAX_DISTANCE_KM.
Proof.
  unfold neo_chunk.
  destruct response as [[| | | | | | items] |]; try (intros []).
  destruct (dict_get items "near_earth_objects") as [table |]; [| intros []].
  destruct (iterate table) as [days |]; [| intros []].
  apply neo_days_inv.
Qed.

Lemma fetch_neo_inv (start_date end_date : Z) (record : sky_object) :
  In record (fetch_neo float_of_string neo_api start_date end_date) ->
  obj_source record = "NEO" /\ obj_distance_km record <= MAX_DISTANCE_KM.
Proof.
  unfold fetch_neo. intros H. apply in_flat_map in H.
  destruct H as (window & _ & H). eapply neo_chunk_inv. exact H.
Qed.

(** X27: every record [fetch_neo] returns is tagged "NEO" and lies within
    the distance limit of 1e7 km, whatever the feed sent. *)
Theorem fetch_neo_records (start_date end_date : Z) (record : sky_object) :
  In record (fetch_neo float_of_string neo_api start_date end_date) ->
  obj_source record = "NEO" /\ obj_distance_km record <= MAX_DISTANCE_KM.
Proof. apply fetch_neo_inv. Qed.






End NeoProperties.

Lemma sample_neo_record :
  neo_object sample_parse sample_neo =
  Some (Some {| obj_source := "NEO"; obj_name := JStr "(2024 AB)";
                obj_diameter_m := 120; obj_velocity_km_s := 12.5;
                obj_distance_km := 5000000 |}).
Proof.
  unfold neo_object, sample_neo.
  cbn [bind getitem dict_get list_getitem nth_error Z.to_nat Z.leb Z.compare
       String.eqb Ascii.eqb Bool.eqb py_float].
  change (sample_parse "5000000") with (Some 5000000).
  change (sample_parse "12.5") with (Some 12.5).
  cbn [bind].
  destruct (Rle_dec 5000000 MAX_DISTANCE_KM) as [_ | N];
    [| exfalso; unfold MAX_DISTANCE_KM in N; lra].
  reflexivity.
Qed.

Lemma fetch_neo_records_witness :
  exists record,
    In record
      (fetch_neo sample_parse
         (fun _ _ =>
            Some (JDict [("near_earth_objects",
                          JDict [("2024-05-18", JList [sample_neo])])]))
         0 (timedelta_days 1)) /\
    obj_source record = "NEO" /\ obj_distance_km record <= MAX_DISTANCE_KM.
Proof.
  eexists.
  match goal with
  | |- In ?r ?l /\ _ =>
      assert (Hin : In {| obj_source := "NEO"; obj_name := JStr "(2024 AB)";
                          obj_diameter_m := 120; obj_velocity_km_s := 12.5;
                          obj_distance_km := 5000000 |} l)
  end.
  { unfold fetch_neo.
    change (neo_windows 0 (timedelta_days 1)) with [(0%Z, timedelta_days 1)].
    cbn [flat_map fst snd]. unfold neo_chunk.
    cbn [dict_get String.eqb Ascii.eqb Bool.eqb iterate map fst neo_days getitem
         bind neo_objects].
    rewrite sample_neo_record. cbn [fst app]. left. reflexivity. }
  split; [exact Hin |].
  exact (fetch_neo_records _ _ _ _ _ Hin).
Defined.


Section PredictorInput.

Variable float_of_string : string -> option R.
Variable timestamp : string.

Lemma read_floats_stops (before : list string) :
  forall (n : nat) (line : string) (after : list string),
  Forall (fun l => float_of_string l <> None) before ->
  (List.length before < n)%nat ->
  float_of_string line = None ->
  read_floats float_of_string n (before ++ line :: after)%list =
  ReadValueError after.
Proof.
  induction before as [| l before IH]; intros n line after Hall Hlen Hbad.
  - destruct n as [| n]; [cbn in Hlen; lia |].
    cbn [app read_floats]. rewrite Hbad. reflexivity.
  - destruct n as [| n]; [cbn in Hlen; lia |].
    inversion Hall as [| ? ? Hl Hrest]; subst.
    cbn [app read_floats].
    destruct (float_of_string l) as [x |]; [| contradiction].
    rewrite (IH n line after Hrest ltac:(cbn in Hlen; lia) Hbad). reflexivity.
Qed.

Lemma read_floats_eof (lines : list string) :
  forall (n : nat),
  Forall (fun l => float_of_string l <> None) lines ->
  (List.length lines < n)%nat ->
  read_floats float_of_string n lines = ReadEOF.
Proof.
  induction lines as [| l lines IH]; intros n Hall Hlen.
  - destruct n as [| n]; [cbn in Hlen; lia | reflexivity].
  - destruct n as [| n]; [cbn in Hlen; lia |].
    inversion Hall as [| ? ? Hl Hrest]; subst.
    cbn [read_floats].
    destruct (float_of_string l) as [x |]; [| contradiction].
    rewrite (IH n Hrest ltac:(cbn in Hlen; lia)). reflexivity.
Qed.

(** X30: the first line that [float] refuses ends the call with the
    numeric-input message, before any range check and without reading the
    lines after it or touching the log; and when standard input ends
    before the fifth value the [EOFError] of [input] is not caught. *)
Theorem interactive_predictor_bad_input
  (before after : list string) (line : string) (log : csv_log) :
  Forall (fun l => float_of_string l <> None) before ->
  (List.length before < 5)%nat ->
  (float_of_string line = None ->
   interactive_predictor float_of_string timestamp
     (before ++ line :: after)%list log =
   (Rejected "ERROR: Invalid input. Please enter numeric values.", after, log)) /\
  interactive_predictor float_of_string timestamp before log =
    (Uncaught, [], log).
Proof.
  intros Hall Hlen. split.
  - intros Hbad. unfold interactive_predictor.
    rewrite (read_floats_stops before 5 line after Hall Hlen Hbad). reflexivity.
  - unfold interactive_predictor.
    rewrite (read_floats_eof before 5 Hall Hlen). reflexivity.
Qed.

End PredictorInput.

Lemma interactive_predictor_bad_input_witness :
  interactive_predictor (fun s => if String.eqb s "1000" then Some 1000 else None)
    "2025-01-01 00:00:00" (["1000"; "1000"] ++ "abc" :: ["7"])%list None =
  (Rejected "ERROR: Invalid input. Please enter numeric values.", ["7"], None).
Proof.
  apply (proj1 (interactive_predictor_bad_input
                  (fun s => if String.eqb s "1000" then Some 1000 else None)
                  "2025-01-01 00:00:00" ["1000"; "1000"] ["7"] "abc" None
                  ltac:(repeat constructor; discriminate)
                  ltac:(cbn; lia))).
  reflexivity.
Defined.
